(** * NeoVintageous session store ([nv/session.py])

    A shallow embedding of the session module: the process-wide store
    [_session], the per-document store [_views], the history subsystem's
    [_storage], the durable session file, and the functions that read and
    write them.  Python exceptions are values of [exn]; code that mutates
    module state runs in the state-and-exception monad [M].

    What the embedding covers.  Values are the JSON data a session holds:
    [None], booleans, integers, strings, lists, and dicts keyed by strings or
    integers; floating-point numbers are left out.  A string is a sequence of
    code points below 256.  The session file is one slot that holds a text
    or does not exist: how [_session_file] finds its path through
    [packages_path()] is left out.  A save can fail: the state carries, in
    [saves], what each coming call of [save_session] meets, whether
    [json.dumps] gives up on the store, [open] raises, or the write breaks
    off part-way.  The [json] library is split in two: the
    tree-to-value step, where the module's [object_hook] runs, is [decode];
    the text side is the class [JsonText], with [text_json] as its
    instance. *)

From Stdlib Require Import ZArith String Ascii List Bool Lia.
From Stdlib Require Import DecimalFacts DecimalString DecimalPos DecimalZ.
From stdpp Require Import base option list gmap strings.

Local Open Scope Z_scope.

(** ** Exceptions and fallible results *)

(** The exception classes this module meets.  [json.JSONDecodeError] is a
    subclass of [ValueError] and is reported as such.  [OSError] is what
    [open(..., 'w')] and [f.write] raise, whatever the subclass;
    [RecursionError] is what [json.dumps] raises on a value nested deeper
    than the interpreter's stack has room for. *)
Inductive exn : Type :=
| FileNotFoundError
| ValueError
| AttributeError
| KeyError
| OSError
| RecursionError.

Inductive result (A : Type) : Type :=
| Ok (a : A)
| Raise (e : exn).
Arguments Ok {A} a.
Arguments Raise {A} e.

#[global] Instance result_ret : MRet result := fun _ a => Ok a.
#[global] Instance result_bind : MBind result := fun _ _ f r =>
  match r with
  | Ok a => f a
  | Raise e => Raise e
  end.

(** ** Python values *)

(** Keys of the dicts this module handles: [str] or [int]. *)
Inductive key : Type :=
| KStr (s : string)
| KInt (n : Z).

#[global] Instance key_eq_dec : EqDecision key.
Proof. solve_decision. Defined.

(** The JSON-representable values a session holds.  A [dict] is kept as the
    list of its items in insertion order. *)
Unset Elimination Schemes.
Inductive pyval : Type :=
| VNone
| VBool (b : bool)
| VInt (n : Z)
| VStr (s : string)
| VList (xs : list pyval)
| VDict (d : list (key * pyval)).
Set Elimination Schemes.

Module Dict.
Section Ops.
Context {K V : Type} `{EqDecision K}.

(** [d[k]], [None] standing for [KeyError]. *)
Fixpoint get (k : K) (d : list (K * V)) : option V :=
  match d with
  | [] => None
  | (k', v) :: d' => if decide (k = k') then Some v else get k d'
  end.

(** [d[k] = v]: an existing key keeps its position, a new one goes last. *)
Fixpoint set (k : K) (v : V) (d : list (K * V)) : list (K * V) :=
  match d with
  | [] => [(k, v)]
  | (k', v') :: d' =>
      if decide (k = k') then (k', v) :: d' else (k', v') :: set k v d'
  end.

(** [dict(pairs)]: items inserted left to right. *)
Definition of_pairs (pairs : list (K * V)) : list (K * V) :=
  fold_left (fun d kv => set kv.1 kv.2 d) pairs [].

End Ops.
End Dict.

(** ** The [str] and [int] builtins

    A [str] is a [string] whose characters are the code points below 256. *)

Definition code (c : ascii) : N := N_of_ascii c.

(** [c.isdecimal()]: the digits 0 to 9. *)
Definition char_isdecimal (c : ascii) : bool :=
  ((48 <=? code c) && (code c <=? 57))%N.

(** [c.isdigit()]: the decimal digits and the superscript digits U+00B2,
    U+00B3 and U+00B9, which are digits without being decimal. *)
Definition char_isdigit (c : ascii) : bool :=
  (char_isdecimal c || (code c =? 178) || (code c =? 179) || (code c =? 185))%N.

(** [c.isspace()] *)
Definition char_isspace (c : ascii) : bool :=
  (((9 <=? code c) && (code c <=? 13)) || ((28 <=? code c) && (code c <=? 32))
   || (code c =? 133) || (code c =? 160))%N.

(** The white space [int] skips around a literal: that of [isspace] without
    the separators U+001C to U+001F. *)
Definition char_isspace_int (c : ascii) : bool :=
  (((9 <=? code c) && (code c <=? 13)) || (code c =? 32)
   || (code c =? 133) || (code c =? 160))%N.

(** [s.isdigit()]: at least one character, all of them digits. *)
Definition isdigit (s : string) : bool :=
  match s with
  | EmptyString => false
  | String _ _ => forallb char_isdigit (list_ascii_of_string s)
  end.

Fixpoint lstrip_chars (space : ascii -> bool) (cs : list ascii) : list ascii :=
  match cs with
  | [] => []
  | c :: cs' => if space c then lstrip_chars space cs' else cs
  end.

(** [s] without the leading and trailing characters that [space] accepts. *)
Definition strip_by (space : ascii -> bool) (s : string) : string :=
  string_of_list_ascii
    (rev (lstrip_chars space (rev (lstrip_chars space (list_ascii_of_string s))))).

(** [s.strip()] *)
Definition strip (s : string) : string := strip_by char_isspace s.

(** The digits of an integer literal, in which single underscores may stand
    between digits; [None] when the text is not of that shape. *)
Fixpoint literal_digits (after_digit : bool) (cs : list ascii) : option (list ascii) :=
  match cs with
  | [] => if after_digit then Some [] else None
  | c :: cs' =>
      if char_isdecimal c then
        match literal_digits true cs' with
        | Some ds => Some (c :: ds)
        | None => None
        end
      else if (code c =? 95)%N && after_digit then literal_digits false cs'
      else None
  end.

(** [int(s)] for a [str]: surrounding whitespace, an optional sign, decimal
    digits.  Anything else is a [ValueError]. *)
Definition int_of_str (s : string) : result Z :=
  let t := strip_by char_isspace_int s in
  let '(negative, body) :=
    match t with
    | String "-" r => (true, r)
    | String "+" r => (false, r)
    | _ => (false, t)
    end in
  match literal_digits false (list_ascii_of_string body) with
  | Some ds =>
      match NilEmpty.uint_of_string (string_of_list_ascii ds) with
      | Some d => Ok (if negative : bool then - Z.of_uint d else Z.of_uint d)
      | None => Raise ValueError
      end
  | None => Raise ValueError
  end.

(** [str(n)] for an [int]. *)
Definition str_of_int (n : Z) : string := NilZero.string_of_int (Z.to_int n).

(** [int(k)] for a dict key. *)
Definition py_int (k : key) : result Z :=
  match k with
  | KInt n => Ok n
  | KStr s => int_of_str s
  end.

(** Truth value of an object, as [if x:] tests it. *)
Definition truthy (v : pyval) : bool :=
  match v with
  | VNone => false
  | VBool b => b
  | VInt n => negb (n =? 0)
  | VStr s => negb (String.eqb s "")
  | VList xs => negb (bool_decide (xs = []))
  | VDict d => negb (bool_decide (d = []))
  end.

(** [x.items()]: only a [dict] has the method. *)
Definition items (v : pyval) : result (list (key * pyval)) :=
  match v with
  | VDict d => Ok d
  | _ => Raise AttributeError
  end.

(** ** JSON

    [json] is the document tree between the text and the Python values: what
    the scanner of [json.loads] reads before any [object_hook] runs, and what
    the encoder of [json.dumps] renders.  An object is the list of its
    members as they stand in the text, repeated names included. *)

Unset Elimination Schemes.
Inductive json : Type :=
| JNull
| JBool (b : bool)
| JInt (n : Z)
| JStr (s : string)
| JArr (xs : list json)
| JObj (members : list (string * json)).
Set Elimination Schemes.

(** The text side of the [json] library: [scan] reads a text ([None] for a
    text it refuses with [JSONDecodeError]) and [render] writes a tree out. *)
Class JsonText : Type := {
  scan : string -> option json;
  render : json -> string
}.

(** A member name as [json.dumps] writes a dict key. *)
Definition key_text (k : key) : string :=
  match k with
  | KStr s => s
  | KInt n => str_of_int n
  end.

Fixpoint to_json (v : pyval) : json :=
  match v with
  | VNone => JNull
  | VBool b => JBool b
  | VInt n => JInt n
  | VStr s => JStr s
  | VList xs => JArr (map to_json xs)
  | VDict d => JObj (map (fun kv => (key_text kv.1, to_json kv.2)) d)
  end.

(** The values [json.loads] builds from a scanned tree: every object becomes
    a [dict] of its members and is then passed through [object_hook], inner
    objects first. *)
Fixpoint decode (object_hook : pyval -> result pyval) (j : json) : result pyval :=
  match j with
  | JNull => Ok VNone
  | JBool b => Ok (VBool b)
  | JInt n => Ok (VInt n)
  | JStr s => Ok (VStr s)
  | JArr xs =>
      vs ← (fix elements (xs : list json) : result (list pyval) :=
              match xs with
              | [] => Ok []
              | x :: xs' =>
                  v ← decode object_hook x;
                  vs ← elements xs';
                  Ok (v :: vs)
              end) xs;
      Ok (VList vs)
  | JObj ms =>
      pairs ← (fix members (ms : list (string * json)) : result (list (key * pyval)) :=
                 match ms with
                 | [] => Ok []
                 | m :: ms' =>
                     v ← decode object_hook m.2;
                     ps ← members ms';
                     Ok ((KStr m.1, v) :: ps)
                 end) ms;
      object_hook (VDict (Dict.of_pairs pairs))
  end.

Definition json_loads `{JsonText} (s : string) (object_hook : pyval -> result pyval) : result pyval :=
  match scan s with
  | Some j => decode object_hook j
  | None => Raise ValueError
  end.

Definition json_dumps `{JsonText} (v : pyval) : string := render (to_json v).

(** [{key(k): v for k, v in d.items()}] *)
Fixpoint dict_comprehension (f : key -> result key) (d acc : list (key * pyval)) : result (list (key * pyval)) :=
  match d with
  | [] => Ok acc
  | (k, v) :: d' =>
      k' ← f k;
      dict_comprehension f d' (Dict.set k' v acc)
  end.

(** [int(k) if k.isdigit() else k]; an [int] has no [isdigit]. *)
Definition promote_key (k : key) : result key :=
  match k with
  | KStr s => if isdigit s then n ← int_of_str s; Ok (KInt n) else Ok k
  | KInt _ => Raise AttributeError
  end.

Definition _json_object_hook_dict_str_key_to_int (x : pyval) : result pyval :=
  match x with
  | VDict d =>
      d' ← dict_comprehension promote_key d [];
      Ok (VDict d')
  | _ => Ok x
  end.

(** ** Module state *)

(** What a call of [save_session] meets. *)
Inductive save_outcome : Type :=
(** the text is made, the file opened, the text written and the file closed *)
| Saved
(** [json.dumps] raises [RecursionError]: no file is opened *)
| DumpsRaises
(** [open(..., 'w')] raises [OSError]: the file is as it was *)
| OpenRaises
(** [open] has truncated the file, then [f.write] or the closing flush
    raises [OSError]: the first [n] characters of the text are all the file
    holds *)
| WriteRaises (n : nat).

#[global] Instance save_outcome_eq_dec : EqDecision save_outcome.
Proof. solve_decision. Defined.

Record state : Type := mkState {
  (** [_session = {}] *)
  _session : list (key * pyval);
  (** [_views = defaultdict(dict)], keyed by [view.id()] *)
  _views : gmap Z (gmap string pyval);
  (** Modelled from the spec: [NeoVintageous.nv.history._storage], which is
      not part of this file's source: "a single mutable integer-keyed store
      that this core clears and repopulates wholesale on load". *)
  _storage : gmap Z pyval;
  (** text of the durable session file; [None] when it does not exist *)
  session_file : option string;
  (** the text of every write of the session file that went through,
      oldest first *)
  written : list string;
  (** exceptions reported through [traceback.print_exc()], oldest first *)
  traces : list exn;
  (** what the coming calls of [save_session] meet, the next one first;
      past the end of the list every save goes through *)
  saves : list save_outcome
}.

Definition with_session (f : list (key * pyval) -> list (key * pyval)) (st : state) : state :=
  mkState (f (_session st)) (_views st) (_storage st) (session_file st) (written st) (traces st)
          (saves st).

Definition with_views (f : gmap Z (gmap string pyval) -> gmap Z (gmap string pyval)) (st : state) : state :=
  mkState (_session st) (f (_views st)) (_storage st) (session_file st) (written st) (traces st)
          (saves st).

Definition with_storage (f : gmap Z pyval -> gmap Z pyval) (st : state) : state :=
  mkState (_session st) (_views st) (f (_storage st)) (session_file st) (written st) (traces st)
          (saves st).

Definition with_saves (f : list save_outcome -> list save_outcome) (st : state) : state :=
  mkState (_session st) (_views st) (_storage st) (session_file st) (written st) (traces st)
          (f (saves st)).

(** ** The state-and-exception monad

    A raised exception keeps the mutations made before it. *)

Definition M (A : Type) : Type := state -> result A * state.

#[global] Instance M_ret : MRet M := fun _ a st => (Ok a, st).
#[global] Instance M_bind : MBind M := fun _ _ f m st =>
  match m st with
  | (Ok a, st') => f a st'
  | (Raise e, st') => (Raise e, st')
  end.

Definition raise {A : Type} (e : exn) : M A := fun st => (Raise e, st).
Definition lift {A : Type} (r : result A) : M A := fun st => (r, st).
Definition gets {A : Type} (f : state -> A) : M A := fun st => (Ok (f st), st).
Definition modify (f : state -> state) : M unit := fun st => (Ok tt, f st).

(** [try: body  except ...: handler] *)
Definition try_except {A : Type} (body : M A) (handler : exn -> M A) : M A :=
  fun st =>
    match body st with
    | (Ok a, st') => (Ok a, st')
    | (Raise e, st') => handler e st'
    end.

(** [for x in xs: body] *)
Fixpoint for_each {A : Type} (xs : list A) (body : A -> M unit) : M unit :=
  match xs with
  | [] => mret tt
  | x :: xs' => body x ;; for_each xs' body
  end.

(** ** Per-document store *)

(** [_views[doc]]: a [defaultdict] builds and stores a fresh [dict] for a
    missing key before returning it. *)
Definition views_getitem (doc : Z) : M (gmap string pyval) :=
  fun st =>
    match _views st !! doc with
    | Some d => (Ok d, st)
    | None => (Ok ∅, with_views (insert doc ∅) st)
    end.

(** [del _views[doc]] *)
Definition views_delitem (doc : Z) : M unit :=
  fun st =>
    match _views st !! doc with
    | Some _ => (Ok tt, with_views (delete doc) st)
    | None => (Raise KeyError, st)
    end.

Definition session_on_close (view : Z) : M unit :=
  try_except
    (views_delitem view)
    (fun e => match e with
              | KeyError => mret tt
              | _ => raise e
              end).

Definition get_session_view_value (view : Z) (name : string) (default : pyval) : M pyval :=
  try_except
    (d ← views_getitem view;
     match d !! name with
     | Some v => mret v
     | None => raise KeyError
     end)
    (fun e => match e with
              | KeyError => mret default
              | _ => raise e
              end).

Definition set_session_view_value (view : Z) (name : string) (value : pyval) : M unit :=
  d ← views_getitem view;
  modify (with_views (insert view (<[name := value]> d))).

(** ** The durable file *)

(** [open(_session_file(), 'r').read()]: the path always names the one
    session file, which either exists or not. *)
Definition read_session_file : M string :=
  fun st =>
    match session_file st with
    | Some content => (Ok content, st)
    | None => (Raise FileNotFoundError, st)
    end.

(** [with open(_session_file(), 'w') as f: f.write(content)].  When the
    write goes through, the file is created or truncated, then holds
    [content] and nothing else.  When [open] raises, the file is untouched;
    when the write breaks off, the file is left with the part of [content]
    that got there.  Either [OSError] goes to the caller.  ([DumpsRaises] is
    met before, by [json.dumps]: a save that meets it writes nothing.) *)
Definition write_session_file (content : string) : M unit :=
  fun st =>
    match hd Saved (saves st) with
    | OpenRaises => (Raise OSError, with_saves (@tl _) st)
    | WriteRaises n =>
        (Raise OSError,
         mkState (_session st) (_views st) (_storage st)
                 (Some (substring 0 n content)) (written st) (traces st) (tl (saves st)))
    | Saved | DumpsRaises =>
        (Ok tt,
         mkState (_session st) (_views st) (_storage st)
                 (Some content) (written st ++ [content]) (traces st) (tl (saves st)))
    end.

(** [traceback.print_exc()] *)
Definition print_exc (e : exn) : M unit :=
  modify (fun st =>
    mkState (_session st) (_views st) (_storage st)
            (session_file st) (written st) (traces st ++ [e]) (saves st)).

(** Modelled from the spec: the two operations on the history subsystem's
    [_storage] that [load_session] uses, [_storage.clear()] and
    [_storage[i] = v], for "a single mutable integer-keyed store". *)
Definition storage_clear : M unit := modify (with_storage (fun _ => ∅)).
Definition storage_setitem (i : Z) (v : pyval) : M unit :=
  modify (with_storage (insert i v)).

(** ** Loading and saving *)

Definition accept_keys : list string :=
  [ "history";
    "ex_substitute_last_pattern";
    "ex_substitute_last_replacement";
    "last_used_register_name";
    "macros" ].

(** [k in accept_keys] *)
Definition in_accept_keys (k : key) : bool :=
  match k with
  | KStr s => bool_decide (s ∈ accept_keys)
  | KInt _ => false
  end.

Section Session.
Context `{JsonText}.

(** [int(version())], fixed when the module is imported. *)
Variable _BUILD_VERSION : Z.

(** One turn of [for k, v in session.items()]. *)
Definition load_item (kv : key * pyval) : M unit :=
  let '(k, v) := kv in
  if negb (in_accept_keys k) then mret tt
  else if bool_decide (k = KStr "history") then
    storage_clear;;
    history ← lift (items v);
    for_each history (fun '(_k, _v) =>
      i ← lift (py_int _k);
      storage_setitem i _v)
  else modify (with_session (Dict.set k v)).

Definition load_session : M unit :=
  try_except
    (content ← read_session_file;
     if negb (String.eqb (strip content) "") then
       session ← lift (json_loads content _json_object_hook_dict_str_key_to_int);
       if truthy session then
         record ← lift (items session);
         for_each record load_item
       else mret tt
     else mret tt)
    (fun e => match e with
              | FileNotFoundError => mret tt
              | _ => print_exc e
              end).

(** [json.dumps(_session)]: the text of the store, unless the encoder runs
    out of stack on it. *)
Definition dumps_session : M string :=
  fun st =>
    match hd Saved (saves st) with
    | DumpsRaises => (Raise RecursionError, with_saves (@tl _) st)
    | _ => (Ok (json_dumps (VDict (_session st))), st)
    end.

Definition save_session : M unit :=
  content ← dumps_session;
  write_session_file content.

Definition session_on_exit : M unit :=
  if (_BUILD_VERSION >=? 4081) then save_session else mret tt.

Definition get_session_value (name : string) (default : pyval) : M pyval :=
  try_except
    (s ← gets _session;
     match Dict.get (KStr name) s with
     | Some v => mret v
     | None => raise KeyError
     end)
    (fun e => match e with
              | KeyError => mret default
              | _ => raise e
              end).

Definition set_session_value (name : string) (value : pyval) (persist : bool) : M unit :=
  modify (with_session (Dict.set (KStr name) value));;
  if persist && (_BUILD_VERSION <? 4081) then save_session else mret tt.

End Session.

(** ** The text of a JSON document

    [text_json] is the [json] library's text side on the documents a session
    file holds: objects, arrays, strings, integers, [true], [false] and
    [null].  It writes what [json.dumps] writes with its default separators
    and [ensure_ascii], and reads with the grammar of [json.loads].  Numbers
    with a fraction or an exponent and code points from 256 on are not values
    of [json]; the scanner here refuses them. *)

Module Text.

Definition quote : ascii := "034".
Definition backslash : ascii := "092".

Definition hex_digit (n : N) : ascii :=
  if (n <? 10)%N then ascii_of_N (48 + n) else ascii_of_N (87 + n).

(** One character of a string as [ensure_ascii] writes it. *)
Definition escape_char (c : ascii) : list ascii :=
  let n := code c in
  if (n =? 34)%N then [backslash; quote]
  else if (n =? 92)%N then [backslash; backslash]
  else if (n =? 10)%N then [backslash; "n"%char]
  else if (n =? 13)%N then [backslash; "r"%char]
  else if (n =? 9)%N then [backslash; "t"%char]
  else if (n =? 8)%N then [backslash; "b"%char]
  else if (n =? 12)%N then [backslash; "f"%char]
  else if ((32 <=? n) && (n <=? 126))%N then [c]
  else [backslash; "u"%char; "0"%char; "0"%char; hex_digit (n / 16); hex_digit (n mod 16)].

Definition render_string (s : string) : list ascii :=
  quote :: flat_map escape_char (list_ascii_of_string s) ++ [quote].

(** [", ".join(parts)] *)
Fixpoint join (parts : list (list ascii)) : list ascii :=
  match parts with
  | [] => []
  | [p] => p
  | p :: ps => p ++ ","%char :: " "%char :: join ps
  end.

Fixpoint render_chars (j : json) : list ascii :=
  match j with
  | JNull => list_ascii_of_string "null"
  | JBool true => list_ascii_of_string "true"
  | JBool false => list_ascii_of_string "false"
  | JInt n => list_ascii_of_string (str_of_int n)
  | JStr s => render_string s
  | JArr xs => "["%char :: join (map render_chars xs) ++ ["]"%char]
  | JObj ms =>
      "{"%char
      :: join (map (fun m => render_string m.1 ++ ":"%char :: " "%char :: render_chars m.2) ms)
      ++ ["}"%char]
  end.

(** White space between tokens: space, tab, line feed, carriage return. *)
Definition is_ws (c : ascii) : bool :=
  ((code c =? 32) || (code c =? 9) || (code c =? 10) || (code c =? 13))%N.

Fixpoint skip_ws (cs : list ascii) : list ascii :=
  match cs with
  | c :: cs' => if is_ws c then skip_ws cs' else cs
  | [] => []
  end.

Definition hex_value (c : ascii) : option N :=
  let n := code c in
  if ((48 <=? n) && (n <=? 57))%N then Some (n - 48)%N
  else if ((97 <=? n) && (n <=? 102))%N then Some (n - 87)%N
  else if ((65 <=? n) && (n <=? 70))%N then Some (n - 55)%N
  else None.

(** The characters of a string after its opening quote, up to the closing
    one; a control character or an unknown escape is refused. *)
Fixpoint scan_string (cs : list ascii) (acc : list ascii) : option (string * list ascii) :=
  match cs with
  | [] => None
  | c :: r =>
      if (code c =? 34)%N then Some (string_of_list_ascii (rev acc), r)
      else if (code c <? 32)%N then None
      else if (code c =? 92)%N then
        match r with
        | e :: r' =>
            let plain (x : N) := scan_string r' (ascii_of_N x :: acc) in
            if (code e =? 34)%N then plain 34%N
            else if (code e =? 92)%N then plain 92%N
            else if (code e =? 47)%N then plain 47%N
            else if (code e =? 98)%N then plain 8%N
            else if (code e =? 102)%N then plain 12%N
            else if (code e =? 110)%N then plain 10%N
            else if (code e =? 114)%N then plain 13%N
            else if (code e =? 116)%N then plain 9%N
            else if (code e =? 117)%N then
              match r' with
              | h1 :: h2 :: h3 :: h4 :: r'' =>
                  match hex_value h1, hex_value h2, hex_value h3, hex_value h4 with
                  | Some 0%N, Some 0%N, Some a, Some b =>
                      scan_string r'' (ascii_of_N (16 * a + b) :: acc)
                  | _, _, _, _ => None
                  end
              | _ => None
              end
            else None
        | [] => None
        end
      else scan_string r (c :: acc)
  end.

Fixpoint take_digits (cs : list ascii) : list ascii * list ascii :=
  match cs with
  | c :: r =>
      if char_isdecimal c then let '(ds, r') := take_digits r in (c :: ds, r')
      else ([], cs)
  | [] => ([], [])
  end.

(** The character after an integer starts a fraction or an exponent. *)
Definition continues_number (cs : list ascii) : bool :=
  match cs with
  | c :: _ => ((code c =? 46) || (code c =? 101) || (code c =? 69))%N
  | [] => false
  end.

(** The digits of an integer: [0], or a digit string that does not start
    with [0]; a fraction or an exponent after them is refused. *)
Definition scan_digits (cs : list ascii) : option (Z * list ascii) :=
  let '(ds, r) :=
    match cs with
    | c :: r => if (code c =? 48)%N then ([c], r) else take_digits cs
    | [] => ([], [])
    end in
  match ds, NilEmpty.uint_of_string (string_of_list_ascii ds) with
  | _ :: _, Some d => if continues_number r then None else Some (Z.of_uint d, r)
  | _, _ => None
  end.

(** An integer: an optional minus, then the digits. *)
Definition scan_int (cs : list ascii) : option (Z * list ascii) :=
  match cs with
  | c :: r =>
      if (code c =? 45)%N then
        match scan_digits r with
        | Some (n, r') => Some (- n, r')
        | None => None
        end
      else scan_digits cs
  | [] => None
  end.

Definition expect (word : string) (j : json) (cs : list ascii) : option (json * list ascii) :=
  let w := list_ascii_of_string word in
  if bool_decide (take (length w) cs = w) then Some (j, drop (length w) cs) else None.

Section Containers.
Variable scan_value : list ascii -> option (json * list ascii).

(** The values of an array from [cs] on, which starts at a value. *)
Fixpoint scan_elements (fuel : nat) (cs : list ascii) (acc : list json) : option (json * list ascii) :=
  match fuel with
  | O => None
  | S fuel' =>
      match scan_value cs with
      | Some (v, r) =>
          match skip_ws r with
          | c :: r' =>
              if (code c =? 93)%N then Some (JArr (rev (v :: acc)), r')
              else if (code c =? 44)%N then scan_elements fuel' (skip_ws r') (v :: acc)
              else None
          | [] => None
          end
      | None => None
      end
  end.

(** The members of an object from [cs] on, which starts at the quote of a
    name. *)
Fixpoint scan_members (fuel : nat) (cs : list ascii) (acc : list (string * json)) : option (json * list ascii) :=
  match fuel with
  | O => None
  | S fuel' =>
      match cs with
      | c :: r =>
          if (code c =? 34)%N then
            match scan_string r [] with
            | Some (name, r1) =>
                match skip_ws r1 with
                | c1 :: r2 =>
                    if (code c1 =? 58)%N then
                      match scan_value (skip_ws r2) with
                      | Some (v, r3) =>
                          match skip_ws r3 with
                          | c3 :: r4 =>
                              if (code c3 =? 125)%N then
                                Some (JObj (rev ((name, v) :: acc)), r4)
                              else if (code c3 =? 44)%N then
                                scan_members fuel' (skip_ws r4) ((name, v) :: acc)
                              else None
                          | [] => None
                          end
                      | None => None
                      end
                    else None
                | [] => None
                end
            | None => None
            end
          else None
      | [] => None
      end
  end.

End Containers.

(** The first character after an opening bracket or brace is the closing
    one, with code [close]. *)
Definition closes (close : N) (cs : list ascii) : bool :=
  match cs with
  | c :: _ => (code c =? close)%N
  | [] => false
  end.

Fixpoint scan_value (fuel : nat) (cs : list ascii) : option (json * list ascii) :=
  match fuel with
  | O => None
  | S fuel' =>
      match cs with
      | [] => None
      | c :: r =>
          if (code c =? 34)%N then
            match scan_string r [] with
            | Some (s, r') => Some (JStr s, r')
            | None => None
            end
          else if (code c =? 123)%N then
            if closes 125 (skip_ws r) then Some (JObj [], drop 1 (skip_ws r))
            else scan_members (scan_value fuel') fuel' (skip_ws r) []
          else if (code c =? 91)%N then
            if closes 93 (skip_ws r) then Some (JArr [], drop 1 (skip_ws r))
            else scan_elements (scan_value fuel') fuel' (skip_ws r) []
          else if (code c =? 110)%N then expect "null" JNull cs
          else if (code c =? 116)%N then expect "true" (JBool true) cs
          else if (code c =? 102)%N then expect "false" (JBool false) cs
          else
            match scan_int cs with
            | Some (n, r') => Some (JInt n, r')
            | None => None
            end
      end
  end.

(** A whole text: one value, white space around it, nothing after. *)
Definition scan_text (s : string) : option json :=
  let cs := list_ascii_of_string s in
  match scan_value (S (length cs)) (skip_ws cs) with
  | Some (j, r) =>
      match skip_ws r with
      | [] => Some j
      | _ :: _ => None
      end
  | None => None
  end.

Definition render_text (j : json) : string := string_of_list_ascii (render_chars j).

(** The number of values in a tree. *)
Fixpoint size (j : json) : nat :=
  match j with
  | JArr xs => S (list_sum (map size xs))
  | JObj ms => S (list_sum (map (fun m => size m.2) ms))
  | _ => 1%nat
  end.

(** What follows an integer ends it: no digit, no fraction, no exponent. *)
Definition ends_number (cs : list ascii) : bool :=
  match cs with
  | c :: _ => negb (char_isdecimal c) && negb (continues_number cs)
  | [] => true
  end.

(** The characters a rendered value can start with: a quote, a bracket, a
    brace, the first letter of [null], [true] or [false], a minus, a digit. *)
Definition starts_value (c : ascii) : bool :=
  ((code c =? 34) || (code c =? 91) || (code c =? 123) || (code c =? 110)
   || (code c =? 116) || (code c =? 102) || (code c =? 45))%N
  || char_isdecimal c.

End Text.

#[global] Instance text_json : JsonText :=
  {| scan := Text.scan_text; render := Text.render_text |}.

(** ** Vocabulary of the statements *)

(** The state of a process that has just imported the module, all of whose
    saves go through. *)
Definition fresh : state := mkState [] ∅ ∅ None [] [] [].

(** The same, next to a session file that holds [content]. *)
Definition fresh_with_file (content : string) : state :=
  mkState [] ∅ ∅ (Some content) [] [] [].

(** What the next call of [save_session] meets. *)
Definition next_save (st : state) : save_outcome := hd Saved (saves st).

(** The exception a save that meets [o] raises. *)
Definition exception_of (o : save_outcome) : exn :=
  match o with
  | DumpsRaises => RecursionError
  | _ => OSError
  end.

(** Every coming save goes through. *)
Definition saves_go_through (st : state) : Prop :=
  Forall (fun o => o = Saved) (saves st).

Abbreviation hook := _json_object_hook_dict_str_key_to_int.

(** [_storage] after it is cleared and filled entry by entry from the items
    [h], each key converted with [int]. *)
Definition history_storage (h : list (key * pyval)) : gmap Z pyval :=
  fold_left
    (fun m kv => match py_int kv.1 with
                 | Ok i => <[i := kv.2]> m
                 | Raise _ => m
                 end)
    h ∅.

(** A decoded record is well formed when its [history] field, if it has one,
    is a mapping whose keys all stand for integers. *)
Definition well_formed (record : list (key * pyval)) : bool :=
  match Dict.get (KStr "history") record with
  | Some (VDict h) =>
      forallb (fun kv => match py_int kv.1 with Ok _ => true | Raise _ => false end) h
  | Some _ => false
  | None => true
  end.

(** The state [load_session] leaves after one top-level item of a well-formed
    record. *)
Definition loaded_item (st : state) (kv : key * pyval) : state :=
  if negb (in_accept_keys kv.1) then st
  else if bool_decide (kv.1 = KStr "history") then
    match kv.2 with
    | VDict h => with_storage (fun _ => history_storage h) st
    | _ => st
    end
  else with_session (Dict.set kv.1 kv.2) st.

(** The store is restricted to the allow-listed names. *)
Definition allow_listed (store : list (key * pyval)) : bool :=
  forallb (fun kv => in_accept_keys kv.1) store.

(** A key that [json.dumps] followed by the decoding hook gives back: an
    [int] that is not negative, or a [str] that [isdigit] rejects. *)
Definition stable_key (k : key) : bool :=
  match k with
  | KInt n => 0 <=? n
  | KStr s => negb (isdigit s)
  end.

(** A value all of whose dicts, at every depth, have distinct stable keys. *)
Fixpoint stable (v : pyval) : bool :=
  match v with
  | VList xs => forallb stable xs
  | VDict d =>
      bool_decide (NoDup d.*1)
      && forallb (fun kv => stable_key kv.1 && stable kv.2) d
  | _ => true
  end.

(** The key the claimed promotion gives a member name: the integer a string
    of decimal digits stands for, every other name unchanged. *)
Definition promoted (name : string) : key :=
  match name with
  | EmptyString => KStr name
  | String _ _ =>
      if forallb char_isdecimal (list_ascii_of_string name) then
        match NilEmpty.uint_of_string name with
        | Some d => KInt (Z.of_uint d)
        | None => KStr name
        end
      else KStr name
  end.

(** The session file gives [load_session] nothing to load: it does not exist,
    or holds only white space, or holds text that is not JSON. *)
Definition no_session_data `{JsonText} (st : state) : Prop :=
  match session_file st with
  | None => True
  | Some content => strip content = EmptyString \/ scan content = None
  end.

(** The state after the session file is overwritten with [text]. *)
Definition after_write (text : string) (st : state) : state :=
  mkState (_session st) (_views st) (_storage st)
          (Some text) (written st ++ [text]) (traces st) (tl (saves st)).

(** The promotion on a dict key. *)
Definition promoted_key (k : key) : key :=
  match k with
  | KStr name => promoted name
  | KInt _ => k
  end.

(** The claimed result of decoding a tree: at every depth, the dict of an
    object's members with each key promoted. *)
Fixpoint promote_all (j : json) : pyval :=
  match j with
  | JNull => VNone
  | JBool b => VBool b
  | JInt n => VInt n
  | JStr s => VStr s
  | JArr xs => VList (map promote_all xs)
  | JObj ms =>
      VDict (Dict.of_pairs
               (map (fun kv : key * pyval => (promoted_key kv.1, kv.2))
                    (Dict.of_pairs (map (fun m => (KStr m.1, promote_all m.2)) ms))))
  end.

(** A name whose digits, if it is all digits, are all decimal. *)
Definition decimal_name (name : string) : bool :=
  implb (isdigit name) (forallb char_isdecimal (list_ascii_of_string name)).

(** Every member name of the tree, at every depth, is a [decimal_name]. *)
Fixpoint decimal_names (j : json) : bool :=
  match j with
  | JArr xs => forallb decimal_names xs
  | JObj ms => forallb (fun m => decimal_name m.1 && decimal_names m.2) ms
  | _ => true
  end.

(** ** Sample session files *)

(** [name] between double quotes. *)
Definition quoted (name : string) : string :=
  String Text.quote (name +:+ String Text.quote EmptyString).

(** [{"bogus": 1, "macros": {}, "history": {"1": "ls", "2": "w"}}] *)
Definition sample_text : string :=
  "{" +:+ quoted "bogus" +:+ ": 1, " +:+ quoted "macros" +:+ ": {}, "
  +:+ quoted "history" +:+ ": {" +:+ quoted "1" +:+ ": " +:+ quoted "ls" +:+ ", "
  +:+ quoted "2" +:+ ": " +:+ quoted "w" +:+ "}}".

Definition sample_record : list (key * pyval) :=
  [ (KStr "bogus", VInt 1);
    (KStr "macros", VDict []);
    (KStr "history", VDict [(KInt 1, VStr "ls"); (KInt 2, VStr "w")]) ].

(** A space, a line feed and a tab. *)
Definition blank_text : string := String " " (String "010" (String "009" EmptyString)).

(** [{"01": "a", "1": "b"}] *)
Definition leading_zero_text : string :=
  "{" +:+ quoted "01" +:+ ": " +:+ quoted "a" +:+ ", "
  +:+ quoted "1" +:+ ": " +:+ quoted "b" +:+ "}".

(** The one-character string of U+00B2, superscript two. *)
Definition superscript_two : string := String "178" EmptyString.

(** [{"macros": {"\u00b2": "x"}, "last_used_register_name": "a"}], the text
    [save_session] writes for a store whose [macros] has the key
    [superscript_two]. *)
Definition superscript_store : list (key * pyval) :=
  [ (KStr "macros", VDict [(KStr superscript_two, VStr "x")]);
    (KStr "last_used_register_name", VStr "a") ].

Definition superscript_text : string :=
  "{" +:+ quoted "macros" +:+ ": {" +:+ quoted (String Text.backslash "u00b2")
  +:+ ": " +:+ quoted "x" +:+ "}, " +:+ quoted "last_used_register_name" +:+ ": "
  +:+ quoted "a" +:+ "}".

(** [{"history": {"3": "x", "foo": "y"}}] *)
Definition history_text : string :=
  "{" +:+ quoted "history" +:+ ": {" +:+ quoted "3" +:+ ": " +:+ quoted "x" +:+ ", "
  +:+ quoted "foo" +:+ ": " +:+ quoted "y" +:+ "}}".

(** [{"macros": {}, "history": 1, "last_used_register_name": "a"}] *)
Definition history_number_text : string :=
  "{" +:+ quoted "macros" +:+ ": {}, " +:+ quoted "history" +:+ ": 1, "
  +:+ quoted "last_used_register_name" +:+ ": " +:+ quoted "a" +:+ "}".

(** A store with a macro recorded in register [1]. *)
Definition digit_macro_store : list (key * pyval) :=
  [ (KStr "macros", VDict [(KStr "1", VStr "x")]) ].

(** A store of allow-listed names with stable keys throughout. *)
Definition stable_store : list (key * pyval) :=
  [ (KStr "macros", VDict [(KStr "a", VList [VStr "w"; VInt 2; VNone])]);
    (KStr "last_used_register_name", VStr "a");
    (KStr "history", VDict [(KInt 1, VDict [(KInt 0, VStr "ls")])]) ].

(** ** Runs of calls *)

(** The calls [set_session_value(name, value, persist)] of [calls], in order. *)
Definition set_session_values `{JsonText} (build : Z)
    (calls : list (string * pyval * bool)) : M unit :=
  for_each calls (fun c => set_session_value build c.1.1 c.1.2 c.2).

(** What a read of the per-document store returns, from the store alone. *)
Definition view_value (views : gmap Z (gmap string pyval)) (doc : Z) (name : string)
    (default : pyval) : pyval :=
  match views !! doc with
  | Some d => match d !! name with
              | Some v => v
              | None => default
              end
  | None => default
  end.

(** What a load may change on the way from [st] to [st']: the history storage
    and the allow-listed names of the session store, [history] apart; no name
    of the session store is removed. *)
Definition loads_into (st st' : state) : Prop :=
  _views st' = _views st
  /\ session_file st' = session_file st
  /\ written st' = written st
  /\ traces st' = traces st
  /\ (forall k : key,
        in_accept_keys k = false \/ k = KStr "history" ->
        Dict.get k (_session st') = Dict.get k (_session st))
  /\ (forall k : key,
        is_Some (Dict.get k (_session st)) -> is_Some (Dict.get k (_session st'))).

(** * Properties *)

(** ** The per-document store *)

Lemma views_getitem_absent (doc : Z) (st : state) :
  _views st !! doc = None ->
  views_getitem doc st = (Ok ∅, with_views (insert doc ∅) st).
Proof. intros Hdoc. unfold views_getitem. now rewrite Hdoc. Qed.

Lemma views_getitem_present (doc : Z) (d : gmap string pyval) (st : state) :
  _views st !! doc = Some d ->
  views_getitem doc st = (Ok d, st).
Proof. intros Hdoc. unfold views_getitem. now rewrite Hdoc. Qed.

(** A read of a document that has an entry changes nothing. *)
Lemma get_session_view_value_present (doc : Z) (name : string) (default : pyval)
    (d : gmap string pyval) (st : state) :
  _views st !! doc = Some d ->
  get_session_view_value doc name default st
  = (Ok (match d !! name with Some v => v | None => default end), st).
Proof.
  intros Hdoc. unfold get_session_view_value, try_except, mbind, M_bind.
  rewrite (views_getitem_present _ _ _ Hdoc).
  now destruct (d !! name).
Qed.

(** C1, as the code has it: a read of a document without an entry returns the
    caller's default, and the lookup stores an empty mapping for that document
    in the per-document store; nothing else changes, and no name becomes
    readable in the new entry. *)
Theorem get_session_view_value_absent (doc : Z) (name : string) (default : pyval)
    (st : state) :
  _views st !! doc = None ->
  get_session_view_value doc name default st
  = (Ok default, with_views (insert doc ∅) st).
Proof.
  intros Hdoc. unfold get_session_view_value, try_except, mbind, M_bind.
  rewrite (views_getitem_absent _ _ Hdoc).
  now rewrite lookup_empty.
Qed.

Lemma get_session_view_value_absent_witness :
  get_session_view_value 7 "k" (VStr "d") fresh
  = (Ok (VStr "d"), with_views (insert 7 ∅) fresh).
Proof. apply (get_session_view_value_absent 7 "k" (VStr "d") fresh). reflexivity. Defined.

(** C1, as the claim states it, fails: after a read of document 7, which had
    no entry, the per-document store has an entry for it. *)
Lemma get_session_view_value_creates_entry :
  ~ (forall (doc : Z) (name : string) (default : pyval) (st : state),
        _views st !! doc = None ->
        (get_session_view_value doc name default st).1 = Ok default
        /\ _views (get_session_view_value doc name default st).2 !! doc = None).
Proof.
  intros Hclaim.
  destruct (Hclaim 7 "k" (VStr "d") fresh) as [_ Hnone]; [reflexivity|].
  vm_compute in Hnone. discriminate Hnone.
Qed.

(** Only [set_session_view_value] makes a name readable: after it, a read of
    that name in that document returns the value written. *)
Lemma set_then_get_session_view_value (doc : Z) (name : string) (value default : pyval)
    (st : state) :
  (set_session_view_value doc name value st).1 = Ok tt
  /\ (get_session_view_value doc name default (set_session_view_value doc name value st).2).1
     = Ok value.
Proof.
  unfold set_session_view_value, mbind, M_bind, views_getitem, modify.
  destruct (_views st !! doc) as [d|] eqn:Hdoc; simpl; (split; [reflexivity|]).
  - erewrite get_session_view_value_present by (simpl; apply lookup_insert_eq).
    simpl. now rewrite lookup_insert_eq.
  - erewrite get_session_view_value_present by (simpl; apply lookup_insert_eq).
    simpl. now rewrite lookup_insert_eq.
Qed.

(** C9: [session_on_close] raises nothing and leaves no entry for the
    document; other documents keep their entries; closing a document that has
    no entry changes nothing, so a second close is a no-op. *)
Theorem session_on_close_idempotent (doc : Z) (st : state) :
  (session_on_close doc st).1 = Ok tt
  /\ _views (session_on_close doc st).2 !! doc = None
  /\ (forall other : Z, other <> doc ->
        _views (session_on_close doc st).2 !! other = _views st !! other)
  /\ (_views st !! doc = None -> (session_on_close doc st).2 = st)
  /\ session_on_close doc (session_on_close doc st).2
     = (Ok tt, (session_on_close doc st).2).
Proof.
  assert (Hgone : forall s, _views s !! doc = None -> session_on_close doc s = (Ok tt, s)).
  { intros s Hs. unfold session_on_close, try_except, views_delitem. now rewrite Hs. }
  assert (Hres : (session_on_close doc st).1 = Ok tt
                 /\ _views (session_on_close doc st).2 !! doc = None
                 /\ (forall other : Z, other <> doc ->
                       _views (session_on_close doc st).2 !! other = _views st !! other)).
  { unfold session_on_close, try_except, views_delitem.
    destruct (_views st !! doc) as [d|] eqn:Hdoc; simpl.
    - split; [reflexivity|]. split; [apply lookup_delete_eq|].
      intros other Hne. now apply lookup_delete_ne.
    - now repeat split. }
  destruct Hres as (Hok & Hnone & Hframe).
  repeat split; try assumption.
  - intros Habsent. now rewrite (Hgone st Habsent).
  - now apply Hgone.
Qed.

Lemma session_on_close_idempotent_witness :
  (session_on_close 7 fresh).2 = fresh.
Proof.
  destruct (session_on_close_idempotent 7 fresh) as (_ & _ & _ & Hsame & _).
  apply Hsame. reflexivity.
Defined.

(** ** The capability gate *)

Lemma save_session_eq `{JsonText} (st : state) :
  next_save st = Saved ->
  save_session st = (Ok tt, after_write (json_dumps (VDict (_session st))) st).
Proof.
  unfold next_save, save_session, mbind, M_bind, dumps_session, write_session_file.
  intros Hnext. rewrite Hnext. cbn. now rewrite Hnext.
Qed.

(** A save that does not go through raises; the store and the log of
    completed writes are as they were. *)
Lemma save_session_raises `{JsonText} (st : state) :
  next_save st <> Saved ->
  (save_session st).1 = Raise (exception_of (next_save st))
  /\ _session (save_session st).2 = _session st
  /\ written (save_session st).2 = written st.
Proof.
  unfold next_save, save_session, mbind, M_bind, dumps_session, write_session_file.
  destruct (hd Saved (saves st)) eqn:Hnext; cbn; rewrite ?Hnext; now cbn.
Qed.

Lemma save_session_session `{JsonText} (st : state) :
  _session (save_session st).2 = _session st
  /\ _views (save_session st).2 = _views st
  /\ _storage (save_session st).2 = _storage st.
Proof.
  unfold save_session, mbind, M_bind, dumps_session, write_session_file.
  destruct (hd Saved (saves st)) eqn:Hnext; cbn; rewrite ?Hnext; now cbn.
Qed.

(** C2: [set_session_value] stores the value and, exactly when [persist] is
    set and the build is older than 4081, saves the whole store before it
    returns: either the file is written, or the save fails and its exception
    goes to the caller, the value already stored.  In every other case it
    returns normally and the file is left as it was. *)
Theorem set_session_value_persist `{JsonText} (build : Z) (name : string)
    (value : pyval) (persist : bool) (st : state) :
  _session (set_session_value build name value persist st).2
  = Dict.set (KStr name) value (_session st)
  /\ ((persist = true /\ build < 4081) <->
      (written (set_session_value build name value persist st).2 <> written st
       \/ (set_session_value build name value persist st).1 <> Ok tt))
  /\ (if persist && (build <? 4081) then
        match next_save st with
        | Saved =>
            set_session_value build name value persist st
            = (Ok tt,
               after_write (json_dumps (VDict (Dict.set (KStr name) value (_session st))))
                           (with_session (Dict.set (KStr name) value) st))
        | _ =>
            (set_session_value build name value persist st).1
            = Raise (exception_of (next_save st))
            /\ written (set_session_value build name value persist st).2 = written st
        end
      else
        set_session_value build name value persist st
        = (Ok tt, with_session (Dict.set (KStr name) value) st)).
Proof.
  assert (Hgrow : forall (w : list string) (x : string), w ++ [x] <> w).
  { intros w x Heq. apply (f_equal length) in Heq.
    rewrite length_app in Heq. simpl in Heq. lia. }
  unfold set_session_value, mbind, M_bind, modify.
  destruct persist; cbn [andb]; destruct (Z.ltb_spec build 4081) as [Hlt|Hge];
    cbn [fst snd].
  - set (st1 := with_session (Dict.set (KStr name) value) st).
    change (next_save st) with (next_save st1).
    destruct (decide (next_save st1 = Saved)) as [Hnext|Hnext].
    + rewrite Hnext, (save_session_eq st1 Hnext).
      cbn [fst snd after_write written _session].
      split; [reflexivity|]. split; [|reflexivity].
      split; [intros _; left; apply Hgrow|now intros _].
    + destruct (save_session_raises st1 Hnext) as (Hr & Hs & Hw).
      rewrite Hs, Hw, Hr. split; [reflexivity|]. split.
      * split; [intros _; right; discriminate|now intros _].
      * now destruct (next_save st1).
  - split; [reflexivity|]. split; [|reflexivity].
    split; [intros [_ Hlt]; lia|intros [Hne|Hr]; now contradiction].
  - split; [reflexivity|]. split; [|reflexivity].
    split; [intros [Hp _]; discriminate Hp|intros [Hne|Hr]; now contradiction].
  - split; [reflexivity|]. split; [|reflexivity].
    split; [intros [Hp _]; discriminate Hp|intros [Hne|Hr]; now contradiction].
Qed.

(** C8: from build 4081 on, [session_on_exit] saves the whole store once:
    when the save goes through, one text is added to the writes, the
    rendering of the store, and when it fails its exception goes to the
    caller and nothing is added; on older builds it changes nothing. *)
Theorem session_on_exit_saves_once `{JsonText} (build : Z) (st : state) :
  (4081 <= build ->
     match next_save st with
     | Saved =>
         session_on_exit build st
         = (Ok tt, after_write (json_dumps (VDict (_session st))) st)
         /\ written (session_on_exit build st).2
            = written st ++ [json_dumps (VDict (_session st))]
     | _ =>
         (session_on_exit build st).1 = Raise (exception_of (next_save st))
         /\ _session (session_on_exit build st).2 = _session st
         /\ written (session_on_exit build st).2 = written st
     end)
  /\ (build < 4081 -> session_on_exit build st = (Ok tt, st)).
Proof.
  unfold session_on_exit. split; intros Hb.
  - destruct (Z.geb_spec build 4081) as [_|Hlt]; [|lia].
    destruct (decide (next_save st = Saved)) as [Hnext|Hnext].
    + now rewrite Hnext, (save_session_eq st Hnext).
    + pose proof (save_session_raises st Hnext) as Hraises.
      now destruct (next_save st).
  - destruct (Z.geb_spec build 4081) as [Hge|_]; [lia|reflexivity].
Qed.

Lemma session_on_exit_saves_once_witness :
  written (session_on_exit 4081 (mkState [(KStr "macros", VDict [])] ∅ ∅ None [] [] [])).2
  = ["{" +:+ String Text.quote "macros" +:+ String Text.quote ": {}}"]
  /\ session_on_exit 4080 fresh = (Ok tt, fresh).
Proof.
  split.
  - destruct (session_on_exit_saves_once 4081
                (mkState [(KStr "macros", VDict [])] ∅ ∅ None [] [] [])) as [Hnew _].
    specialize (Hnew ltac:(lia)). unfold next_save in Hnew. cbn [hd saves] in Hnew.
    destruct Hnew as [_ Hw]. rewrite Hw. reflexivity.
  - destruct (session_on_exit_saves_once 4080 fresh) as [_ Hold].
    apply Hold. lia.
Defined.

(** ** Loading *)

(** C3: [load_session] returns normally whatever the session file is; when
    the file does not exist, is blank, or is not JSON, the stores are left as
    they were, so a store that was empty stays empty. *)
Theorem load_session_never_raises `{JsonText} (st : state) :
  (load_session st).1 = Ok tt
  /\ (no_session_data st ->
      _session (load_session st).2 = _session st
      /\ _storage (load_session st).2 = _storage st
      /\ _views (load_session st).2 = _views st
      /\ (_session st = [] -> _session (load_session st).2 = [])).
Proof.
  split.
  - unfold load_session, try_except.
    match goal with
    | |- context [match ?body st with _ => _ end] =>
        destruct (body st) as [[[]|e] st1]
    end; [reflexivity|].
    now destruct e.
  - unfold no_session_data, load_session, try_except, mbind, M_bind,
      read_session_file.
    destruct (session_file st) as [content|]; [|now intros _].
    intros [Hblank|Hscan].
    + rewrite Hblank. now simpl.
    + destruct (negb (String.eqb (strip content) "")); [|now simpl].
      unfold json_loads. rewrite Hscan. now simpl.
Qed.

Lemma load_session_never_raises_witness :
  _session (load_session fresh).2 = []
  /\ _session (load_session (fresh_with_file blank_text)).2 = []
  /\ _session (load_session (fresh_with_file "{not json")).2 = [].
Proof.
  split; [|split].
  - destruct (load_session_never_raises fresh) as [_ Hkeep].
    destruct Hkeep as (_ & _ & _ & Hempty); [exact I|].
    apply Hempty. reflexivity.
  - destruct (load_session_never_raises (fresh_with_file blank_text)) as [_ Hkeep].
    destruct Hkeep as (_ & _ & _ & Hempty); [left; reflexivity|].
    apply Hempty. reflexivity.
  - destruct (load_session_never_raises (fresh_with_file "{not json")) as [_ Hkeep].
    destruct Hkeep as (_ & _ & _ & Hempty); [right; reflexivity|].
    apply Hempty. reflexivity.
Defined.

(** ** Dicts *)

Section DictFacts.
Context {K V : Type} `{EqDecision K}.
Implicit Types (k : K) (v : V) (d : list (K * V)).

Lemma get_set_eq k v d : Dict.get k (Dict.set k v d) = Some v.
Proof.
  induction d as [|[k' v'] d IH]; simpl.
  - now rewrite decide_True.
  - destruct (decide (k = k')) as [->|Hne]; simpl.
    + now rewrite decide_True.
    + now rewrite decide_False.
Qed.

Lemma get_set_ne k k' v d : k <> k' -> Dict.get k (Dict.set k' v d) = Dict.get k d.
Proof.
  intros Hne. induction d as [|[k0 v0] d IH]; simpl.
  - now rewrite decide_False.
  - destruct (decide (k' = k0)) as [->|Hne0]; simpl.
    + now rewrite !decide_False.
    + destruct (decide (k = k0)); [reflexivity|assumption].
Qed.

Lemma get_None k d : k ∉ d.*1 -> Dict.get k d = None.
Proof.
  induction d as [|[k' v'] d IH]; simpl; [reflexivity|].
  intros Hnotin. apply not_elem_of_cons in Hnotin as [Hne Hrest].
  rewrite decide_False by assumption. now apply IH.
Qed.

Lemma get_Some_elem k v d : Dict.get k d = Some v -> (k, v) ∈ d.
Proof.
  induction d as [|[k' v'] d IH]; simpl; [discriminate|].
  destruct (decide (k = k')) as [->|Hne].
  - intros [= ->]. apply list_elem_of_here.
  - intros Hget. apply list_elem_of_further. now apply IH.
Qed.

Lemma get_elem_NoDup k v d : NoDup d.*1 -> (k, v) ∈ d -> Dict.get k d = Some v.
Proof.
  induction d as [|[k' v'] d IH]; simpl; intros Hnd Hin.
  - now apply elem_of_nil in Hin.
  - apply NoDup_cons in Hnd as [Hfresh Hnd].
    apply elem_of_cons in Hin as [[= -> ->]|Hin].
    + now rewrite decide_True.
    + destruct (decide (k = k')) as [->|Hne]; [|now apply IH].
      contradiction Hfresh. apply list_elem_of_fmap. now exists (k', v).
Qed.

(** A key that is not in the dict goes last. *)
Lemma set_fresh k v d : k ∉ d.*1 -> Dict.set k v d = d ++ [(k, v)].
Proof.
  induction d as [|[k' v'] d IH]; simpl; [reflexivity|].
  intros Hnotin. apply not_elem_of_cons in Hnotin as [Hne Hrest].
  rewrite decide_False by assumption. now rewrite IH.
Qed.

Lemma set_keys_elem k k' v d : k ∈ (Dict.set k' v d).*1 <-> k = k' \/ k ∈ d.*1.
Proof.
  induction d as [|[k0 v0] d IH]; simpl.
  - rewrite list_elem_of_singleton. split; [now left|].
    intros [?|Hnil]; [assumption|now apply elem_of_nil in Hnil].
  - destruct (decide (k' = k0)) as [->|Hne]; simpl; rewrite !elem_of_cons.
    + tauto.
    + rewrite IH. tauto.
Qed.

Lemma set_NoDup k v d : NoDup d.*1 -> NoDup (Dict.set k v d).*1.
Proof.
  induction d as [|[k' v'] d IH]; simpl; intros Hnd.
  - apply NoDup_singleton.
  - apply NoDup_cons in Hnd as [Hfresh Hnd].
    destruct (decide (k = k')) as [->|Hne]; simpl.
    + now apply NoDup_cons.
    + apply NoDup_cons. split; [|now apply IH].
      rewrite set_keys_elem. intros [Heq|Hin]; [now subst|contradiction].
Qed.

(** Distinct keys: [dict(pairs)] is the list of pairs itself. *)
Lemma of_pairs_NoDup d : NoDup d.*1 -> Dict.of_pairs d = d.
Proof.
  unfold Dict.of_pairs.
  assert (Hgen : forall acc, NoDup (acc ++ d).*1 ->
            fold_left (fun a kv => Dict.set kv.1 kv.2 a) d acc = acc ++ d).
  { induction d as [|[k v] d IH]; intros acc Hnd; simpl.
    - now rewrite app_nil_r.
    - rewrite set_fresh.
      + rewrite (IH (acc ++ [(k, v)])); rewrite <- app_assoc; [reflexivity|exact Hnd].
      + rewrite fmap_app in Hnd. simpl in Hnd.
        apply NoDup_app in Hnd as (_ & Hdisj & _).
        intros Hin. apply (Hdisj k Hin). apply list_elem_of_here. }
  intros Hnd. now apply (Hgen []).
Qed.

End DictFacts.

(** ** Distribution of a decoded record *)

Lemma history_loop (h : list (key * pyval)) (st : state) :
  forallb (fun kv => match py_int kv.1 with Ok _ => true | Raise _ => false end) h = true ->
  for_each h (fun '(_k, _v) => i ← lift (py_int _k); storage_setitem i _v) st
  = (Ok tt,
     with_storage
       (fun m => fold_left
                   (fun m kv => match py_int kv.1 with
                                | Ok i => <[i := kv.2]> m
                                | Raise _ => m
                                end) h m) st).
Proof.
  revert st. induction h as [|[k v] h IH]; intros st Hints; simpl.
  - now destruct st.
  - simpl in Hints. apply andb_true_iff in Hints as [Hk Hrest].
    unfold mbind, M_bind, lift at 1, storage_setitem at 1, modify.
    destruct (py_int k) as [i|e]; [|discriminate Hk]. simpl.
    now rewrite (IH _ Hrest).
Qed.

(** One item of a record whose [history], if this is it, is well formed. *)
Lemma load_item_eq (kv : key * pyval) (st : state) :
  (kv.1 = KStr "history" ->
   exists h, kv.2 = VDict h
     /\ forallb (fun kv => match py_int kv.1 with Ok _ => true | Raise _ => false end) h = true) ->
  load_item kv st = (Ok tt, loaded_item st kv).
Proof.
  destruct kv as [k v]. unfold load_item, loaded_item. simpl. intros Hhist.
  destruct (negb (in_accept_keys k)); [reflexivity|].
  destruct (bool_decide_reflect (k = KStr "history")) as [Heq|Hne]; [|reflexivity].
  destruct (Hhist Heq) as (h & -> & Hints).
  unfold mbind, M_bind, storage_clear, modify, lift. simpl.
  now rewrite (history_loop h _ Hints).
Qed.

Lemma load_items_eq (record : list (key * pyval)) (st : state) :
  (forall kv, kv ∈ record -> kv.1 = KStr "history" ->
     exists h, kv.2 = VDict h
       /\ forallb (fun kv => match py_int kv.1 with Ok _ => true | Raise _ => false end) h = true) ->
  for_each record load_item st = (Ok tt, fold_left loaded_item record st).
Proof.
  revert st. induction record as [|kv record IH]; intros st Hwf; simpl; [reflexivity|].
  unfold mbind, M_bind.
  rewrite load_item_eq by (apply Hwf, list_elem_of_here).
  apply IH. intros kv' Hin. apply Hwf. now apply list_elem_of_further.
Qed.

Lemma well_formed_items (record : list (key * pyval)) :
  NoDup record.*1 -> well_formed record = true ->
  forall kv, kv ∈ record -> kv.1 = KStr "history" ->
    exists h, kv.2 = VDict h
      /\ forallb (fun kv => match py_int kv.1 with Ok _ => true | Raise _ => false end) h = true.
Proof.
  intros Hnd Hwf [k v] Hin Hk. simpl in Hk. subst k. simpl.
  unfold well_formed in Hwf.
  rewrite (get_elem_NoDup _ _ _ Hnd Hin) in Hwf.
  destruct v; try discriminate Hwf. now exists d.
Qed.

(** The stores after the items of a record, read key by key. *)

Lemma loaded_frame (record : list (key * pyval)) (st : state) :
  _views (fold_left loaded_item record st) = _views st
  /\ session_file (fold_left loaded_item record st) = session_file st
  /\ written (fold_left loaded_item record st) = written st
  /\ traces (fold_left loaded_item record st) = traces st.
Proof.
  revert st. induction record as [|[k v] record IH]; intros st; simpl; [easy|].
  destruct (IH (loaded_item st (k, v))) as (-> & -> & -> & ->).
  unfold loaded_item. simpl.
  destruct (negb (in_accept_keys k)); [easy|].
  destruct (bool_decide (k = KStr "history")); [|easy].
  now destruct v.
Qed.

Lemma loaded_session_other (k : key) (record : list (key * pyval)) (st : state) :
  in_accept_keys k = false \/ k = KStr "history" \/ k ∉ record.*1 ->
  Dict.get k (_session (fold_left loaded_item record st)) = Dict.get k (_session st).
Proof.
  revert st. induction record as [|[k' v'] record IH]; intros st Hk; simpl; [reflexivity|].
  rewrite IH.
  - unfold loaded_item. simpl.
    destruct (in_accept_keys k') eqn:Hacc; simpl; [|reflexivity].
    destruct (bool_decide_reflect (k' = KStr "history")) as [Heq|Hne].
    + now destruct v'.
    + simpl. apply get_set_ne. intros ->.
      destruct Hk as [Hk|[Hk|Hk]]; [congruence|contradiction|].
      apply Hk. simpl. apply list_elem_of_here.
  - destruct Hk as [Hk|[Hk|Hk]]; [now left|now right; left|].
    right; right. intros Hin. apply Hk. simpl. now apply list_elem_of_further.
Qed.

Lemma loaded_session_kept (k : key) (v : pyval) (record : list (key * pyval)) (st : state) :
  NoDup record.*1 ->
  in_accept_keys k = true -> k <> KStr "history" ->
  Dict.get k record = Some v ->
  Dict.get k (_session (fold_left loaded_item record st)) = Some v.
Proof.
  intros Hnd Hacc Hne. revert st.
  induction record as [|[k' v'] record IH]; intros st Hget; simpl in *; [discriminate|].
  apply NoDup_cons in Hnd as [Hfresh Hnd].
  destruct (decide (k = k')) as [<-|Hkk].
  - injection Hget as ->.
    rewrite loaded_session_other by (now right; right).
    unfold loaded_item. simpl. rewrite Hacc. simpl.
    rewrite bool_decide_eq_false_2 by assumption. simpl.
    apply get_set_eq.
  - now apply IH.
Qed.

Lemma loaded_storage_other (record : list (key * pyval)) (st : state) :
  KStr "history" ∉ record.*1 ->
  _storage (fold_left loaded_item record st) = _storage st.
Proof.
  revert st. induction record as [|[k' v'] record IH]; intros st Hk; simpl; [reflexivity|].
  apply not_elem_of_cons in Hk as [Hne Hrest]. simpl in Hne.
  rewrite IH by assumption.
  unfold loaded_item. simpl.
  destruct (negb (in_accept_keys k')); [reflexivity|].
  rewrite bool_decide_eq_false_2 by congruence. reflexivity.
Qed.

Lemma loaded_storage_history (h : list (key * pyval)) (record : list (key * pyval))
    (st : state) :
  NoDup record.*1 ->
  Dict.get (KStr "history") record = Some (VDict h) ->
  _storage (fold_left loaded_item record st) = history_storage h.
Proof.
  intros Hnd. revert st.
  induction record as [|[k' v'] record IH]; intros st Hget; simpl in *; [discriminate|].
  apply NoDup_cons in Hnd as [Hfresh Hnd].
  destruct (decide (KStr "history" = k')) as [<-|Hkk].
  - injection Hget as ->.
    now rewrite loaded_storage_other.
  - now apply IH.
Qed.

Lemma loaded_storage_absent (record : list (key * pyval)) (st : state) :
  Dict.get (KStr "history") record = None ->
  _storage (fold_left loaded_item record st) = _storage st.
Proof.
  intros Hget. apply loaded_storage_other.
  intros Hin. apply list_elem_of_fmap in Hin as ([k v] & Hk & Hin).
  simpl in Hk. subst k.
  revert Hget. clear -Hin. induction record as [|[k' v'] record IH]; simpl.
  - now apply elem_of_nil in Hin.
  - destruct (decide (KStr "history" = k')); [discriminate|].
    apply elem_of_cons in Hin as [Heq|Hin]; [congruence|now apply IH].
Qed.

(** ** Decoded dicts have distinct keys *)

Lemma dict_comprehension_NoDup (f : key -> result key) (d acc d' : list (key * pyval)) :
  NoDup acc.*1 -> dict_comprehension f d acc = Ok d' -> NoDup d'.*1.
Proof.
  revert acc. induction d as [|[k v] d IH]; intros acc Hnd; simpl.
  - now intros [= <-].
  - destruct (f k) as [k'|e]; simpl; [|discriminate].
    apply IH. now apply set_NoDup.
Qed.

Lemma hook_dict_NoDup (x : pyval) (d : list (key * pyval)) :
  hook x = Ok (VDict d) -> NoDup d.*1.
Proof.
  destruct x; simpl; try discriminate.
  destruct (dict_comprehension promote_key d0 []) as [d'|e] eqn:Hcomp; simpl;
    [|discriminate].
  intros [= <-]. eapply dict_comprehension_NoDup; [|exact Hcomp]. apply NoDup_nil_2.
Qed.

Lemma decode_dict_NoDup (j : json) (d : list (key * pyval)) :
  decode hook j = Ok (VDict d) -> NoDup d.*1.
Proof.
  destruct j; simpl; try discriminate.
  - match goal with
    | |- context [mbind _ ?r] => destruct r as [vs|e]
    end; discriminate.
  - match goal with
    | |- context [mbind _ ?r] => destruct r as [ps|e]
    end; simpl; [|discriminate].
    intros Hhook. exact (hook_dict_NoDup (VDict (Dict.of_pairs ps)) d Hhook).
Qed.

Lemma json_loads_dict_NoDup `{JsonText} (content : string) (d : list (key * pyval)) :
  json_loads content hook = Ok (VDict d) -> NoDup d.*1.
Proof.
  unfold json_loads. destruct (scan content) as [j|]; [|discriminate].
  apply decode_dict_NoDup.
Qed.

(** [load_session] on a file that decodes to a well-formed record. *)
Lemma load_session_record `{JsonText} (st : state) (content : string)
    (record : list (key * pyval)) :
  session_file st = Some content ->
  strip content <> EmptyString ->
  json_loads content hook = Ok (VDict record) ->
  well_formed record = true ->
  load_session st = (Ok tt, fold_left loaded_item record st).
Proof.
  intros Hfile Hstrip Hloads Hwf.
  unfold load_session, try_except, mbind, M_bind, read_session_file.
  rewrite Hfile.
  apply String.eqb_neq in Hstrip. rewrite Hstrip. simpl.
  rewrite Hloads.
  destruct record as [|kv record]; [reflexivity|].
  cbn [truthy negb]. rewrite bool_decide_eq_false_2 by discriminate.
  cbn [negb items].
  rewrite load_items_eq; [reflexivity|].
  apply well_formed_items; [|assumption].
  eapply json_loads_dict_NoDup, Hloads.
Qed.

(** C5: on a file that decodes to a well-formed record, [load_session] ends
    without error; the [history] field replaces the history storage by its
    items, each key converted to an integer; every other allow-listed name is
    stored in the session store with its value; under every other key the
    session store holds what it held before. *)
Theorem load_session_distributes `{JsonText} (st : state) (content : string)
    (record : list (key * pyval)) :
  session_file st = Some content ->
  strip content <> EmptyString ->
  json_loads content hook = Ok (VDict record) ->
  well_formed record = true ->
  (load_session st).1 = Ok tt
  /\ traces (load_session st).2 = traces st
  /\ (forall h : list (key * pyval),
        Dict.get (KStr "history") record = Some (VDict h) ->
        _storage (load_session st).2 = history_storage h
        /\ forall (i : Z) (v : pyval),
             history_storage h !! i = Some v -> exists k, (k, v) ∈ h /\ py_int k = Ok i)
  /\ (Dict.get (KStr "history") record = None ->
        _storage (load_session st).2 = _storage st)
  /\ (forall (name : string) (v : pyval),
        name ∈ accept_keys -> name <> "history" ->
        Dict.get (KStr name) record = Some v ->
        Dict.get (KStr name) (_session (load_session st).2) = Some v)
  /\ (forall k : key,
        in_accept_keys k = false \/ k = KStr "history" ->
        Dict.get k (_session (load_session st).2) = Dict.get k (_session st)).
Proof.
  intros Hfile Hstrip Hloads Hwf.
  rewrite (load_session_record st content record Hfile Hstrip Hloads Hwf). simpl.
  pose proof (json_loads_dict_NoDup _ _ Hloads) as Hnd.
  split; [reflexivity|]. split; [apply loaded_frame|].
  split; [|split; [|split]].
  - intros h Hget. split; [now apply loaded_storage_history|].
    intros i v. unfold history_storage.
    assert (Hgen : forall m : gmap Z pyval,
              fold_left (fun m kv => match py_int kv.1 with
                                     | Ok i => <[i := kv.2]> m
                                     | Raise _ => m
                                     end) h m !! i = Some v ->
              m !! i = Some v \/ exists k, (k, v) ∈ h /\ py_int k = Ok i).
    { clear. induction h as [|[k0 v0] h IH]; intros m; simpl; [now left|].
      intros Hlook. apply IH in Hlook as [Hlook|(k & Hin & Hk)].
      - destruct (py_int k0) as [i0|e] eqn:Hk0; [|now left].
        destruct (decide (i0 = i)) as [->|Hne].
        + rewrite lookup_insert_eq in Hlook. injection Hlook as ->.
          right. exists k0. split; [apply list_elem_of_here|assumption].
        + rewrite lookup_insert_ne in Hlook by assumption. now left.
      - right. exists k. split; [now apply list_elem_of_further|assumption]. }
    intros Hlook. apply Hgen in Hlook as [Hempty|Hfound]; [|assumption].
    now rewrite lookup_empty in Hempty.
  - apply loaded_storage_absent.
  - intros name v Hname Hne Hget.
    apply loaded_session_kept; try assumption.
    + simpl. now apply bool_decide_eq_true_2.
    + congruence.
  - intros k Hk. apply loaded_session_other. tauto.
Qed.

Lemma load_session_distributes_witness :
  Dict.get (KStr "macros") (_session (load_session (fresh_with_file sample_text)).2)
  = Some (VDict [])
  /\ Dict.get (KStr "bogus") (_session (load_session (fresh_with_file sample_text)).2)
     = None
  /\ _storage (load_session (fresh_with_file sample_text)).2
     = <[2 := VStr "w"]> (<[1 := VStr "ls"]> ∅).
Proof.
  destruct (load_session_distributes (fresh_with_file sample_text) sample_text sample_record)
    as (_ & _ & Hhist & _ & Hkept & Hother).
  - reflexivity.
  - vm_compute. discriminate.
  - vm_compute. reflexivity.
  - reflexivity.
  - split; [|split].
    + apply Hkept; [|discriminate|reflexivity].
      vm_compute. repeat constructor.
    + rewrite Hother; [reflexivity|now left].
    + destruct (Hhist [(KInt 1, VStr "ls"); (KInt 2, VStr "w")]) as [-> _]; reflexivity.
Defined.

(** ** Digits *)

Lemma char_isdecimal_facts (c : ascii) :
  char_isdecimal c = true ->
  char_isdigit c = true /\ char_isspace_int c = false /\ (code c =? 95)%N = false.
Proof.
  destruct c as [[] [] [] [] [] [] [] []]; intros Hdec;
    try discriminate Hdec; now vm_compute.
Qed.

Lemma lstrip_chars_decimal (cs : list ascii) :
  forallb char_isdecimal cs = true -> lstrip_chars char_isspace_int cs = cs.
Proof.
  destruct cs as [|c cs]; simpl; [reflexivity|].
  intros Hall. apply andb_true_iff in Hall as [Hc _].
  destruct (char_isdecimal_facts c Hc) as (_ & -> & _). reflexivity.
Qed.

Lemma strip_by_decimal (s : string) :
  forallb char_isdecimal (list_ascii_of_string s) = true ->
  strip_by char_isspace_int s = s.
Proof.
  intros Hall. unfold strip_by.
  rewrite (lstrip_chars_decimal _ Hall).
  rewrite lstrip_chars_decimal.
  - now rewrite rev_involutive, string_of_list_ascii_of_string.
  - apply forallb_forall. intros c Hin. apply in_rev in Hin.
    now apply (proj1 (forallb_forall _ _) Hall).
Qed.

Lemma literal_digits_decimal (cs : list ascii) (after_digit : bool) :
  forallb char_isdecimal cs = true ->
  cs <> [] \/ after_digit = true ->
  literal_digits after_digit cs = Some cs.
Proof.
  revert after_digit. induction cs as [|c cs IH]; intros after_digit Hall Hne; simpl.
  - destruct Hne as [Hne| ->]; [now contradiction Hne|reflexivity].
  - simpl in Hall. apply andb_true_iff in Hall as [Hc Hall].
    rewrite Hc. now rewrite IH by (assumption || now right).
Qed.

Lemma uint_of_string_decimal (s : string) :
  forallb char_isdecimal (list_ascii_of_string s) = true ->
  exists d, NilEmpty.uint_of_string s = Some d.
Proof.
  induction s as [|c s IH]; simpl; [now exists Decimal.Nil|].
  intros Hall. apply andb_true_iff in Hall as [Hc Hall].
  destruct (IH Hall) as [d ->].
  destruct c as [[] [] [] [] [] [] [] []]; try discriminate Hc; simpl; eauto.
Qed.

(** [int] of a string of decimal digits is the number Stdlib reads in it. *)
Lemma int_of_str_decimal (s : string) (d : Decimal.uint) :
  s <> EmptyString ->
  forallb char_isdecimal (list_ascii_of_string s) = true ->
  NilEmpty.uint_of_string s = Some d ->
  int_of_str s = Ok (Z.of_uint d).
Proof.
  intros Hne Hall Hd. unfold int_of_str.
  rewrite (strip_by_decimal s Hall).
  destruct s as [|c r]; [now contradiction Hne|].
  assert (Hbody : (let '(negative, body) :=
                     match String c r with
                     | String "-" r0 => (true, r0)
                     | String "+" r0 => (false, r0)
                     | _ => (false, String c r)
                     end in (negative, body)) = (false, String c r)).
  { simpl in Hall. apply andb_true_iff in Hall as [Hc _].
    destruct c as [[] [] [] [] [] [] [] []]; try discriminate Hc; reflexivity. }
  destruct (match String c r with
            | String "-" r0 => (true, r0)
            | String "+" r0 => (false, r0)
            | _ => (false, String c r)
            end) as [negative body].
  injection Hbody as -> ->.
  rewrite literal_digits_decimal; [|assumption|now left].
  now rewrite string_of_list_ascii_of_string, Hd.
Qed.

Lemma isdigit_decimal (s : string) :
  s <> EmptyString ->
  forallb char_isdecimal (list_ascii_of_string s) = true ->
  isdigit s = true.
Proof.
  intros Hne Hall. destruct s as [|c r]; [now contradiction Hne|].
  unfold isdigit. apply forallb_forall. intros x Hin.
  apply (proj1 (forallb_forall _ _) Hall) in Hin.
  now apply char_isdecimal_facts in Hin.
Qed.

(** On a decimal name the hook's key is the promoted one. *)
Lemma promote_key_promoted (name : string) :
  decimal_name name = true ->
  promote_key (KStr name) = Ok (promoted name).
Proof.
  unfold decimal_name, promote_key, promoted. intros Hname.
  destruct (isdigit name) eqn:Hdigit; simpl in Hname.
  - destruct name as [|c r]; [discriminate Hdigit|].
    rewrite Hname.
    destruct (uint_of_string_decimal _ Hname) as [d Hd]. rewrite Hd.
    now rewrite (int_of_str_decimal _ d) by (assumption || discriminate).
  - destruct name as [|c r]; [reflexivity|].
    destruct (forallb char_isdecimal (list_ascii_of_string (String c r))) eqn:Hall;
      [|reflexivity].
    rewrite isdigit_decimal in Hdigit by (assumption || discriminate).
    discriminate Hdigit.
Qed.

(** [str] of an integer that is not negative is a string of decimal digits
    that reads back as the integer. *)
Lemma string_of_uint_decimal (d : Decimal.uint) :
  forallb char_isdecimal (list_ascii_of_string (NilEmpty.string_of_uint d)) = true.
Proof. induction d; simpl; [reflexivity|..]; assumption. Qed.

Lemma str_of_int_decimal (n : Z) :
  0 <= n ->
  str_of_int n <> EmptyString
  /\ forallb char_isdecimal (list_ascii_of_string (str_of_int n)) = true
  /\ exists d, NilEmpty.uint_of_string (str_of_int n) = Some d /\ Z.of_uint d = n.
Proof.
  intros Hn. unfold str_of_int.
  assert (Hpos : exists d, Z.to_int n = Decimal.Pos d /\ d <> Decimal.Nil).
  { destruct n as [|p|p]; [now exists Decimal.zero| |lia].
    exists (Pos.to_uint p). split; [reflexivity|].
    apply DecimalPos.Unsigned.to_uint_nonnil. }
  destruct Hpos as (d & Hto & Hnil).
  pose proof (DecimalZ.of_to n) as Hback. rewrite Hto in *. simpl in Hback.
  assert (Hs : NilZero.string_of_uint d = NilEmpty.string_of_uint d)
    by (destruct d; [now contradiction Hnil|reflexivity..]).
  simpl. rewrite Hs.
  split; [destruct d; [now contradiction Hnil|discriminate..]|].
  split; [apply string_of_uint_decimal|].
  exists d. split; [apply NilEmpty.usu|exact Hback].
Qed.

Lemma promoted_str_of_int (n : Z) : 0 <= n -> promoted (str_of_int n) = KInt n.
Proof.
  intros Hn. destruct (str_of_int_decimal n Hn) as (Hne & Hall & d & Hd & Hval).
  unfold promoted. destruct (str_of_int n) as [|c r]; [now contradiction Hne|].
  now rewrite Hall, Hd, Hval.
Qed.

Lemma promoted_not_digit (s : string) : isdigit s = false -> promoted s = KStr s.
Proof.
  intros Hdigit. unfold promoted. destruct s as [|c r]; [reflexivity|].
  destruct (forallb char_isdecimal (list_ascii_of_string (String c r))) eqn:Hall;
    [|reflexivity].
  rewrite isdigit_decimal in Hdigit by (assumption || discriminate).
  discriminate Hdigit.
Qed.

(** ** Decoding *)

Lemma json_nested_ind (P : json -> Prop) :
  P JNull -> (forall b, P (JBool b)) -> (forall n, P (JInt n)) -> (forall s, P (JStr s)) ->
  (forall xs, Forall P xs -> P (JArr xs)) ->
  (forall ms, Forall (fun m => P m.2) ms -> P (JObj ms)) ->
  forall j, P j.
Proof.
  intros Hnull Hbool Hint Hstr Harr Hobj.
  fix IH 1. intros [ |b|n|s|xs|ms].
  - exact Hnull.
  - apply Hbool.
  - apply Hint.
  - apply Hstr.
  - apply Harr. induction xs as [|x xs IHxs]; constructor; [apply IH|exact IHxs].
  - apply Hobj. induction ms as [|m ms IHms]; constructor; [apply IH|exact IHms].
Qed.

Lemma pyval_nested_ind (P : pyval -> Prop) :
  P VNone -> (forall b, P (VBool b)) -> (forall n, P (VInt n)) -> (forall s, P (VStr s)) ->
  (forall xs, Forall P xs -> P (VList xs)) ->
  (forall d, Forall (fun kv => P kv.2) d -> P (VDict d)) ->
  forall v, P v.
Proof.
  intros Hnone Hbool Hint Hstr Hlist Hdict.
  fix IH 1. intros [ |b|n|s|xs|d].
  - exact Hnone.
  - apply Hbool.
  - apply Hint.
  - apply Hstr.
  - apply Hlist. induction xs as [|x xs IHxs]; constructor; [apply IH|exact IHxs].
  - apply Hdict. induction d as [|kv d IHd]; constructor; [apply IH|exact IHd].
Qed.

Lemma of_pairs_keys {K V : Type} `{EqDecision K} (k : K) (d : list (K * V)) :
  k ∈ (Dict.of_pairs d).*1 -> k ∈ d.*1.
Proof.
  unfold Dict.of_pairs.
  assert (Hgen : forall acc : list (K * V),
            k ∈ (fold_left (fun a kv => Dict.set kv.1 kv.2 a) d acc).*1 ->
            k ∈ acc.*1 \/ k ∈ d.*1).
  { induction d as [|[k' v'] d IH]; intros acc; simpl; [now left|].
    intros Hin. apply IH in Hin as [Hin|Hin].
    - apply set_keys_elem in Hin as [->|Hin]; [right; apply list_elem_of_here|now left].
    - right. now apply list_elem_of_further. }
  intros Hin. apply Hgen in Hin as [Hnil|Hin]; [|assumption].
  now apply elem_of_nil in Hnil.
Qed.

Lemma dict_comprehension_map (f : key -> result key) (g : key -> key)
    (d acc : list (key * pyval)) :
  (forall kv, kv ∈ d -> f kv.1 = Ok (g kv.1)) ->
  dict_comprehension f d acc
  = Ok (fold_left (fun a kv => Dict.set kv.1 kv.2 a)
                  (map (fun kv : key * pyval => (g kv.1, kv.2)) d) acc).
Proof.
  revert acc. induction d as [|[k v] d IH]; intros acc Hf; simpl; [reflexivity|].
  pose proof (Hf (k, v) (list_elem_of_here _ _)) as Hk. simpl in Hk.
  rewrite Hk. simpl.
  apply IH. intros kv Hin. apply Hf. now apply list_elem_of_further.
Qed.

(** The hook on the dict of an object whose names are decimal names. *)
Lemma hook_promotes (d : list (key * pyval)) :
  (forall k, k ∈ d.*1 -> exists name, k = KStr name /\ decimal_name name = true) ->
  hook (VDict d)
  = Ok (VDict (Dict.of_pairs (map (fun kv : key * pyval => (promoted_key kv.1, kv.2)) d))).
Proof.
  intros Hkeys. simpl.
  rewrite (dict_comprehension_map promote_key promoted_key); [reflexivity|].
  intros [k v] Hin. simpl.
  destruct (Hkeys k) as (name & -> & Hname).
  - apply list_elem_of_fmap. now exists (k, v).
  - now apply promote_key_promoted.
Qed.

(** Decoding promotes the keys of every mapping of a tree whose names are
    decimal names, at every depth. *)
Lemma decode_promotes (j : json) :
  decimal_names j = true -> decode hook j = Ok (promote_all j).
Proof.
  induction j as [ |b|n|s|xs IH|ms IH] using json_nested_ind; intros Hnames;
    try reflexivity.
  - cbn [decode promote_all].
    match goal with
    | |- mbind _ (?elements xs) = _ =>
        assert (Hels : elements xs = Ok (map promote_all xs))
    end.
    { cbn [decimal_names] in Hnames.
      induction xs as [|x xs IHxs]; [reflexivity|].
      simpl in Hnames. apply andb_true_iff in Hnames as [Hx Hxs].
      apply Forall_cons in IH as [IHx IHrest].
      rewrite (IHx Hx). cbn [mbind result_bind].
      now rewrite (IHxs IHrest Hxs). }
    now rewrite Hels.
  - cbn [decode promote_all].
    match goal with
    | |- mbind _ (?members ms) = _ =>
        assert (Hms : members ms = Ok (map (fun m => (KStr m.1, promote_all m.2)) ms))
    end.
    { cbn [decimal_names] in Hnames.
      induction ms as [|m ms IHms]; [reflexivity|].
      simpl in Hnames. apply andb_true_iff in Hnames as [Hm Hrest].
      apply andb_true_iff in Hm as [_ Hm].
      apply Forall_cons in IH as [IHm IHrest].
      rewrite (IHm Hm). cbn [mbind result_bind].
      now rewrite (IHms IHrest Hrest). }
    rewrite Hms. cbn [mbind result_bind].
    apply hook_promotes.
    intros k Hin. apply of_pairs_keys in Hin.
    apply list_elem_of_fmap in Hin as ([k' v'] & -> & Hin). simpl.
    apply list_elem_of_In, in_map_iff in Hin as (m & [= <- _] & Hin).
    exists m.1. split; [reflexivity|].
    cbn [decimal_names] in Hnames.
    apply (proj1 (forallb_forall _ _) Hnames) in Hin.
    now apply andb_true_iff in Hin as [Hname _].
Qed.

(** The spec's example: the [history] sub-mapping of
    [{"history": {"3": "x", "foo": "y"}}] decodes with the integer key 3 and
    the string key [foo]. *)
Example decode_history_text :
  json_loads history_text hook
  = Ok (VDict [(KStr "history", VDict [(KInt 3, VStr "x"); (KStr "foo", VStr "y")])]).
Proof. reflexivity. Qed.

(** C4: a key that [isdigit] accepts and [int] refuses stops the decoding.
    The superscript two is such a key: the hook raises [ValueError] on it
    instead of passing it through, [json.loads] fails on the text
    [save_session] wrote, and [load_session] loads nothing of the record, its
    other allow-listed name included. *)
Theorem superscript_key_stops_decoding :
  isdigit superscript_two = true
  /\ forallb char_isdecimal (list_ascii_of_string superscript_two) = false
  /\ promote_key (KStr superscript_two) = Raise ValueError
  /\ hook (VDict [(KStr superscript_two, VStr "x")]) = Raise ValueError
  /\ json_dumps (VDict superscript_store) = superscript_text
  /\ json_loads superscript_text hook = Raise ValueError
  /\ load_session (fresh_with_file superscript_text)
     = (Ok tt, mkState [] ∅ ∅ (Some superscript_text) [] [ValueError] []).
Proof. repeat split; reflexivity. Qed.

(** C10: the promotion is not injective.  The names [01] and [1] are
    distinct and both become the integer 1; the object that has both decodes
    to a mapping with one entry, and the value of [01] is lost. *)
Theorem promotion_not_injective :
  exists (ms : list (string * json)) (d : list (key * pyval)),
    scan leading_zero_text = Some (JObj ms)
    /\ ms = [("01", JStr "a"); ("1", JStr "b")]
    /\ NoDup ms.*1
    /\ promote_key (KStr "01") = promote_key (KStr "1")
    /\ json_loads leading_zero_text hook = Ok (VDict d)
    /\ d = [(KInt 1, VStr "b")]
    /\ (length d < length ms)%nat
    /\ VStr "a" ∉ d.*2.
Proof.
  exists [("01", JStr "a"); ("1", JStr "b")], [(KInt 1, VStr "b")].
  repeat split; try reflexivity.
  - simpl. apply NoDup_cons. split; [|apply NoDup_singleton].
    rewrite list_elem_of_singleton. discriminate.
  - simpl. lia.
  - simpl. rewrite list_elem_of_singleton. discriminate.
Qed.

(** ** Round trip *)

Lemma stable_key_promoted (k : key) : stable_key k = true -> promoted (key_text k) = k.
Proof.
  destruct k as [s|n]; simpl; intros Hk.
  - apply promoted_not_digit. now apply negb_true_iff.
  - apply promoted_str_of_int. now apply Z.leb_le.
Qed.

Lemma stable_key_decimal_name (k : key) :
  stable_key k = true -> decimal_name (key_text k) = true.
Proof.
  destruct k as [s|n]; simpl; intros Hk; unfold decimal_name.
  - apply negb_true_iff in Hk. now rewrite Hk.
  - apply Z.leb_le in Hk. destruct (str_of_int_decimal n Hk) as (_ & -> & _).
    apply implb_true_r.
Qed.

Lemma stable_dict (d : list (key * pyval)) :
  stable (VDict d) = true ->
  NoDup d.*1 /\ Forall (fun kv => stable_key kv.1 = true /\ stable kv.2 = true) d.
Proof.
  cbn [stable]. intros Hd. apply andb_true_iff in Hd as [Hnd Hall].
  split; [now apply bool_decide_eq_true_1 in Hnd|].
  apply Forall_forall. intros kv Hin. apply list_elem_of_In in Hin.
  apply (proj1 (forallb_forall _ _) Hall) in Hin.
  now apply andb_true_iff in Hin.
Qed.

(** What a stable value is written as has decimal names only. *)
Lemma stable_decimal_names (v : pyval) :
  stable v = true -> decimal_names (to_json v) = true.
Proof.
  induction v as [ |b|n|s|xs IH|d IH] using pyval_nested_ind; intros Hv;
    try reflexivity.
  - cbn [to_json decimal_names]. cbn [stable] in Hv.
    apply forallb_forall. intros j Hin. apply in_map_iff in Hin as (x & <- & Hin).
    apply (proj1 (Forall_forall _ _) IH x (proj2 (list_elem_of_In _ _) Hin)).
    now apply (proj1 (forallb_forall _ _) Hv).
  - cbn [to_json decimal_names]. apply stable_dict in Hv as [_ Hall].
    apply forallb_forall. intros m Hin. apply in_map_iff in Hin as (kv & <- & Hin).
    apply list_elem_of_In in Hin.
    destruct (proj1 (Forall_forall _ _) Hall kv Hin) as [Hk Hx]. simpl.
    rewrite (stable_key_decimal_name _ Hk). simpl.
    now apply (proj1 (Forall_forall _ _) IH kv Hin).
Qed.

(** Promotion undoes the writing of a stable value. *)
Lemma promote_all_to_json (v : pyval) :
  stable v = true -> promote_all (to_json v) = v.
Proof.
  induction v as [ |b|n|s|xs IH|d IH] using pyval_nested_ind; intros Hv;
    try reflexivity.
  - cbn [to_json promote_all]. cbn [stable] in Hv. f_equal.
    rewrite map_map. rewrite <- (map_id xs) at 2. apply map_ext_in.
    intros x Hin.
    apply (proj1 (Forall_forall _ _) IH x (proj2 (list_elem_of_In _ _) Hin)).
    now apply (proj1 (forallb_forall _ _) Hv).
  - cbn [to_json promote_all]. apply stable_dict in Hv as [Hnd Hall]. f_equal.
    rewrite map_map. cbn [fst snd].
    assert (Hinner : map (fun kv : key * pyval =>
                            (KStr (key_text kv.1), promote_all (to_json kv.2))) d
                     = map (fun kv : key * pyval => (KStr (key_text kv.1), kv.2)) d).
    { apply map_ext_in. intros kv Hin. apply list_elem_of_In in Hin. f_equal.
      apply (proj1 (Forall_forall _ _) IH kv Hin).
      now apply (proj1 (Forall_forall _ _) Hall kv Hin). }
    rewrite Hinner.
    rewrite (of_pairs_NoDup (map (fun kv : key * pyval => (KStr (key_text kv.1), kv.2)) d)).
    + rewrite map_map. cbn [fst snd promoted_key].
      assert (Hback : map (fun kv : key * pyval => (promoted (key_text kv.1), kv.2)) d = d).
      { rewrite <- (map_id d) at 2. apply map_ext_in. intros [k x] Hin.
        apply list_elem_of_In in Hin. simpl.
        destruct (proj1 (Forall_forall _ _) Hall _ Hin) as [Hk _].
        now rewrite (stable_key_promoted k Hk). }
      rewrite Hback. now apply of_pairs_NoDup.
    + assert (Hmap : (map (fun kv : key * pyval => (KStr (key_text kv.1), kv.2)) d).*1
                     = (fun k => KStr (key_text k)) <$> d.*1).
      { clear. induction d as [|[k x] d IHd]; [reflexivity|].
        cbn [map fmap list_fmap fst]. f_equal. exact IHd. }
      rewrite Hmap. apply NoDup_fmap_2_strong; [|assumption].
      intros k1 k2 Hin1 Hin2 [= Heq].
      apply list_elem_of_fmap in Hin1 as (kv1 & -> & Hin1).
      apply list_elem_of_fmap in Hin2 as (kv2 & -> & Hin2).
      destruct (proj1 (Forall_forall _ _) Hall _ Hin1) as [Hk1 _].
      destruct (proj1 (Forall_forall _ _) Hall _ Hin2) as [Hk2 _].
      rewrite <- (stable_key_promoted _ Hk1), <- (stable_key_promoted _ Hk2).
      now rewrite Heq.
Qed.

Lemma allow_listed_name (store : list (key * pyval)) (name : string) (v : pyval) :
  allow_listed store = true ->
  Dict.get (KStr name) store = Some v ->
  in_accept_keys (KStr name) = true.
Proof.
  intros Hall Hget. apply get_Some_elem, list_elem_of_In in Hget.
  apply (proj1 (forallb_forall _ _) Hall) in Hget. exact Hget.
Qed.

(** The round trip for any text side that reads back the tree it wrote for
    this store. *)
Lemma round_trip_lossless `{JsonText} (store : list (key * pyval)) :
  allow_listed store = true ->
  stable (VDict store) = true ->
  scan (json_dumps (VDict store)) = Some (to_json (VDict store)) ->
  json_loads (json_dumps (VDict store)) hook = Ok (VDict store)
  /\ (strip (json_dumps (VDict store)) <> EmptyString ->
      well_formed store = true ->
      forall st : state,
        session_file st = Some (json_dumps (VDict store)) ->
        (forall (name : string) (v : pyval),
           name <> "history" ->
           Dict.get (KStr name) store = Some v ->
           Dict.get (KStr name) (_session (load_session st).2) = Some v)
        /\ (forall h : list (key * pyval),
              Dict.get (KStr "history") store = Some (VDict h) ->
              _storage (load_session st).2 = history_storage h)
        /\ Dict.get (KStr "history") (_session (load_session st).2)
           = Dict.get (KStr "history") (_session st)).
Proof.
  intros Hall Hstable Hscan.
  assert (Hloads : json_loads (json_dumps (VDict store)) hook = Ok (VDict store)).
  { unfold json_loads. rewrite Hscan.
    rewrite decode_promotes by now apply stable_decimal_names.
    now rewrite promote_all_to_json. }
  split; [exact Hloads|].
  intros Hstrip Hwf st Hfile.
  rewrite (load_session_record st _ store Hfile Hstrip Hloads Hwf). simpl.
  apply stable_dict in Hstable as [Hnd _].
  split; [|split].
  - intros name v Hne Hget. apply loaded_session_kept; try assumption.
    + exact (allow_listed_name store name v Hall Hget).
    + congruence.
  - intros h Hget. now apply loaded_storage_history.
  - apply loaded_session_other. now right; left.
Qed.

(** C6, as the claim states it, fails: the store with a macro in register
    [1] is restricted to allow-listed names, and its text decodes to a store
    whose [macros] has the integer key 1 where the string key [1] was. *)
Lemma round_trip_changes_digit_keys :
  allow_listed digit_macro_store = true
  /\ json_loads (json_dumps (VDict digit_macro_store)) hook
     = Ok (VDict [(KStr "macros", VDict [(KInt 1, VStr "x")])])
  /\ json_loads (json_dumps (VDict digit_macro_store)) hook
     <> Ok (VDict digit_macro_store).
Proof. repeat split; [reflexivity..|discriminate]. Qed.

(** ** The text codec reads back what it writes *)

Lemma scan_escape_char (c : ascii) (r acc : list ascii) :
  Text.scan_string (Text.escape_char c ++ r) acc = Text.scan_string r (c :: acc).
Proof. destruct c as [[] [] [] [] [] [] [] []]; reflexivity. Qed.

Lemma scan_string_render (cs r acc : list ascii) :
  Text.scan_string (flat_map Text.escape_char cs ++ Text.quote :: r) acc
  = Some (string_of_list_ascii (rev acc ++ cs), r).
Proof.
  revert acc. induction cs as [|c cs IH]; intros acc.
  - simpl. now rewrite app_nil_r.
  - cbn [flat_map]. rewrite <- app_assoc, scan_escape_char, IH.
    simpl. now rewrite <- app_assoc.
Qed.

Lemma starts_value_facts (c : ascii) :
  Text.starts_value c = true ->
  Text.is_ws c = false /\ (code c =? 93)%N = false /\ (code c =? 125)%N = false.
Proof.
  destruct c as [[] [] [] [] [] [] [] []]; intros Hc; try discriminate Hc;
    now vm_compute.
Qed.

Lemma skip_ws_starts (c : ascii) (r : list ascii) :
  Text.starts_value c = true -> Text.skip_ws (c :: r) = c :: r.
Proof.
  intros Hc. destruct (starts_value_facts c Hc) as (Hws & _). simpl. now rewrite Hws.
Qed.

(** Integers *)

Lemma take_digits_decimal (ds rest : list ascii) :
  forallb char_isdecimal ds = true ->
  Text.ends_number rest = true ->
  Text.take_digits (ds ++ rest) = (ds, rest).
Proof.
  intros Hds Hrest. induction ds as [|c ds IH]; cbn [app Text.take_digits].
  - destruct rest as [|c rest]; [reflexivity|]. cbn [Text.ends_number] in Hrest.
    apply andb_true_iff in Hrest as [Hc _]. apply negb_true_iff in Hc.
    cbn [Text.take_digits]. now rewrite Hc.
  - cbn [forallb] in Hds. apply andb_true_iff in Hds as [Hc Hds].
    now rewrite Hc, (IH Hds).
Qed.

Lemma to_uint_no_leading_zero (p : positive) (d : Decimal.uint) :
  Pos.to_uint p <> Decimal.D0 d.
Proof.
  intros Hd.
  pose proof (DecimalPos.Unsigned.to_of (Pos.to_uint p)) as Hnorm.
  rewrite DecimalPos.Unsigned.of_to in Hnorm. simpl in Hnorm.
  rewrite Hd in Hnorm. rewrite DecimalFacts.unorm_D0 in Hnorm.
  assert (Hcase : d = Decimal.Nil \/ d <> Decimal.Nil)
    by (destruct d; [now left|right; discriminate..]).
  destruct Hcase as [->|Hne].
  - exact (DecimalPos.Unsigned.to_uint_nonzero p Hd).
  - pose proof (DecimalFacts.nb_digits_unorm d Hne) as Hlen.
    rewrite <- Hnorm in Hlen. simpl in Hlen. lia.
Qed.

Lemma ends_number_continues (rest : list ascii) :
  Text.ends_number rest = true -> Text.continues_number rest = false.
Proof.
  destruct rest as [|c rest]; [reflexivity|]. cbn [Text.ends_number].
  intros Hrest. apply andb_true_iff in Hrest as [_ Hc]. now apply negb_true_iff.
Qed.

Lemma scan_digits_chars (c : ascii) (tl rest : list ascii) (d : Decimal.uint) :
  (code c =? 48)%N = false ->
  forallb char_isdecimal (c :: tl) = true ->
  NilEmpty.uint_of_string (string_of_list_ascii (c :: tl)) = Some d ->
  Text.ends_number rest = true ->
  Text.scan_digits ((c :: tl) ++ rest) = Some (Z.of_uint d, rest).
Proof.
  intros Hc Hall Hd Hrest. unfold Text.scan_digits.
  cbn [app]. rewrite Hc.
  change (c :: tl ++ rest) with ((c :: tl) ++ rest).
  rewrite (take_digits_decimal _ rest Hall Hrest), Hd.
  now rewrite (ends_number_continues rest Hrest).
Qed.

Lemma scan_digits_render (n : Z) (rest : list ascii) :
  0 <= n ->
  Text.ends_number rest = true ->
  Text.scan_digits (list_ascii_of_string (str_of_int n) ++ rest) = Some (n, rest).
Proof.
  intros Hn Hrest.
  destruct n as [|p|p]; [| |lia].
  - unfold Text.scan_digits. simpl. now rewrite (ends_number_continues rest Hrest).
  - pose proof (DecimalZ.of_to (Z.pos p)) as Hback.
    unfold str_of_int. cbn [Z.to_int NilZero.string_of_int] in *.
    cbn [Z.of_int] in Hback.
    pose proof (string_of_uint_decimal (Pos.to_uint p)) as Hall.
    pose proof (NilEmpty.usu (Pos.to_uint p)) as Husu.
    pose proof (DecimalPos.Unsigned.to_uint_nonnil p) as Hnil.
    pose proof (to_uint_no_leading_zero p) as Hzero.
    rewrite <- Hback.
    destruct (Pos.to_uint p) as [|d|d|d|d|d|d|d|d|d|d];
      [now contradiction Hnil|now contradiction (Hzero d)|..];
      (apply scan_digits_chars;
       [reflexivity|exact Hall|
        cbn [string_of_list_ascii]; rewrite string_of_list_ascii_of_string; exact Husu|
        exact Hrest]).
Qed.

Lemma str_of_int_head (n : Z) :
  exists (c : ascii) (tl : list ascii),
    list_ascii_of_string (str_of_int n) = c :: tl
    /\ (c = "-"%char \/ char_isdecimal c = true).
Proof.
  destruct n as [|p|p].
  - exists "0"%char, []. split; [reflexivity|now right].
  - destruct (str_of_int_decimal (Z.pos p)) as (Hne & Hall & _); [lia|].
    destruct (str_of_int (Z.pos p)) as [|c r]; [now contradiction Hne|].
    exists c, (list_ascii_of_string r). split; [reflexivity|right].
    simpl in Hall. now apply andb_true_iff in Hall as [Hc _].
  - exists "-"%char, (list_ascii_of_string (str_of_int (Z.pos p))).
    split; [reflexivity|now left].
Qed.

Lemma scan_int_render (n : Z) (rest : list ascii) :
  Text.ends_number rest = true ->
  Text.scan_int (list_ascii_of_string (str_of_int n) ++ rest) = Some (n, rest).
Proof.
  intros Hrest. destruct (Z.le_gt_cases 0 n) as [Hn|Hn].
  - pose proof (scan_digits_render n rest Hn Hrest) as Hscan.
    destruct (str_of_int_decimal n Hn) as (Hne & Hall & _).
    destruct (str_of_int n) as [|c r]; [now contradiction Hne|].
    simpl in Hall. apply andb_true_iff in Hall as [Hc _].
    cbn [list_ascii_of_string app] in *. unfold Text.scan_int.
    assert (Hminus : (code c =? 45)%N = false)
      by (destruct c as [[] [] [] [] [] [] [] []]; try discriminate Hc; reflexivity).
    now rewrite Hminus.
  - destruct n as [|p|p]; [lia|lia|].
    change (list_ascii_of_string (str_of_int (Z.neg p)))
      with ("-"%char :: list_ascii_of_string (str_of_int (Z.pos p))).
    unfold Text.scan_int. cbn [app].
    change (code "-" =? 45)%N with true. cbv iota.
    now rewrite (scan_digits_render (Z.pos p) rest).
Qed.


(** Values *)

Lemma render_head (j : json) (rest : list ascii) :
  exists (c : ascii) (r : list ascii),
    Text.render_chars j ++ rest = c :: r /\ Text.starts_value c = true.
Proof.
  destruct j as [ |[]|n|s|xs|ms]; cbn [Text.render_chars Text.render_string];
    try (eexists _, _; split; reflexivity).
  destruct (str_of_int_head n) as (c & tl & -> & [->|Hc]);
    (eexists _, _; split; [reflexivity|]); [reflexivity|].
  unfold Text.starts_value. rewrite Hc. apply orb_true_r.
Qed.

Lemma skip_ws_render (j : json) (rest : list ascii) :
  Text.skip_ws (Text.render_chars j ++ rest) = Text.render_chars j ++ rest.
Proof.
  destruct (render_head j rest) as (c & r & -> & Hc). now apply skip_ws_starts.
Qed.

Lemma join_cons (p : list ascii) (ps : list (list ascii)) :
  Text.join (p :: ps)
  = p ++ match ps with
         | [] => []
         | _ :: _ => ","%char :: " "%char :: Text.join ps
         end.
Proof. destruct ps; simpl; [now rewrite app_nil_r|reflexivity]. Qed.

Lemma skip_ws_keep (c : ascii) (r : list ascii) :
  Text.is_ws c = false -> Text.skip_ws (c :: r) = c :: r.
Proof. intros Hc. simpl. now rewrite Hc. Qed.

Lemma skip_ws_space (r : list ascii) :
  Text.skip_ws (" "%char :: r) = Text.skip_ws r.
Proof. reflexivity. Qed.

Lemma skip_ws_join (xs : list json) (r : list ascii) :
  xs <> [] ->
  Text.skip_ws (Text.join (map Text.render_chars xs) ++ r)
  = Text.join (map Text.render_chars xs) ++ r.
Proof.
  destruct xs as [|x xs]; [now intros Hne; contradiction Hne|intros _].
  cbn [map]. rewrite join_cons, <- app_assoc. apply skip_ws_render.
Qed.

Section Loops.
Variable sv : list ascii -> option (json * list ascii).

Lemma scan_elements_render (xs : list json) :
  forall (fuel : nat) (acc : list json) (rest : list ascii),
    xs <> [] ->
    (length xs <= fuel)%nat ->
    (forall x rest', x ∈ xs -> Text.ends_number rest' = true ->
       sv (Text.render_chars x ++ rest') = Some (x, rest')) ->
    Text.scan_elements sv fuel
      (Text.join (map Text.render_chars xs) ++ "]"%char :: rest) acc
    = Some (JArr (rev acc ++ xs), rest).
Proof.
  induction xs as [|x xs IH]; intros fuel acc rest Hne Hfuel Hsv;
    [now contradiction Hne|].
  destruct fuel as [|fuel]; [simpl in Hfuel; lia|].
  cbn [map]. rewrite join_cons, <- app_assoc.
  cbn [Text.scan_elements].
  rewrite (Hsv x) by (apply list_elem_of_here || now destruct xs).
  destruct xs as [|y ys].
  - cbn [map app]. rewrite skip_ws_keep by reflexivity.
    change (code "]"%char =? 93)%N with true. cbv iota.
    cbn [rev]. reflexivity.
  - cbn [map app]. rewrite skip_ws_keep by reflexivity.
    change (code ","%char =? 93)%N with false.
    change (code ","%char =? 44)%N with true. cbv iota.
    rewrite skip_ws_space.
    change (Text.render_chars y :: map Text.render_chars ys)
      with (map Text.render_chars (y :: ys)).
    rewrite skip_ws_join by discriminate.
    rewrite IH.
    + cbn [rev]. now rewrite <- app_assoc.
    + discriminate.
    + simpl in Hfuel |- *. lia.
    + intros x' rest' Hin. apply Hsv. now apply list_elem_of_further.
Qed.

Lemma member_text (name : string) (v : json) (tail : list ascii) :
  (Text.render_string name ++ ":"%char :: " "%char :: Text.render_chars v) ++ tail
  = Text.quote
    :: flat_map Text.escape_char (list_ascii_of_string name)
    ++ Text.quote :: ":"%char :: " "%char :: Text.render_chars v ++ tail.
Proof. unfold Text.render_string. simpl. now rewrite <- !app_assoc. Qed.

Lemma scan_members_render (ms : list (string * json)) :
  forall (fuel : nat) (acc : list (string * json)) (rest : list ascii),
    ms <> [] ->
    (length ms <= fuel)%nat ->
    (forall m rest', m ∈ ms -> Text.ends_number rest' = true ->
       sv (Text.render_chars m.2 ++ rest') = Some (m.2, rest')) ->
    Text.scan_members sv fuel
      (Text.join
         (map (fun m => Text.render_string m.1 ++ ":"%char :: " "%char :: Text.render_chars m.2)
              ms)
       ++ "}"%char :: rest) acc
    = Some (JObj (rev acc ++ ms), rest).
Proof.
  induction ms as [|[name v] ms IH]; intros fuel acc rest Hne Hfuel Hsv;
    [now contradiction Hne|].
  destruct fuel as [|fuel]; [simpl in Hfuel; lia|].
  cbn [map fst snd]. rewrite join_cons, <- app_assoc, member_text.
  cbn [Text.scan_members].
  change (code Text.quote =? 34)%N with true. cbv iota.
  rewrite scan_string_render. cbn [rev app].
  rewrite string_of_list_ascii_of_string.
  rewrite skip_ws_keep by reflexivity.
  change (code ":"%char =? 58)%N with true. cbv iota.
  rewrite skip_ws_space, skip_ws_render.
  rewrite (Hsv (name, v)) by (apply list_elem_of_here || now destruct ms).
  destruct ms as [|m ms].
  - cbn [map app]. rewrite skip_ws_keep by reflexivity.
    change (code "}"%char =? 125)%N with true. cbv iota. reflexivity.
  - cbn [map app]. rewrite skip_ws_keep by reflexivity.
    change (code ","%char =? 125)%N with false.
    change (code ","%char =? 44)%N with true. cbv iota.
    rewrite skip_ws_space.
    match goal with
    | |- context [Text.skip_ws (Text.join (?p :: ?ps) ++ ?r)] =>
        replace (Text.skip_ws (Text.join (p :: ps) ++ r)) with (Text.join (p :: ps) ++ r)
          by (rewrite join_cons, <- app_assoc, member_text; now rewrite skip_ws_keep)
    end.
    transitivity (Some (JObj (rev ((name, v) :: acc) ++ m :: ms), rest));
      [|cbn [rev]; now rewrite <- app_assoc].
    apply (IH fuel ((name, v) :: acc) rest).
    + discriminate.
    + simpl in Hfuel |- *. lia.
    + intros m' rest' Hin. apply Hsv. now apply list_elem_of_further.
Qed.

End Loops.

Lemma size_pos (j : json) : (1 <= Text.size j)%nat.
Proof. destruct j; simpl; lia. Qed.

Lemma list_sum_elem {A : Type} (f : A -> nat) (x : A) (xs : list A) :
  x ∈ xs -> (f x <= list_sum (map f xs))%nat.
Proof.
  induction xs as [|y xs IH]; intros Hin; [now apply elem_of_nil in Hin|].
  simpl. apply elem_of_cons in Hin as [->|Hin]; [lia|].
  specialize (IH Hin). lia.
Qed.

Lemma list_sum_length {A : Type} (f : A -> nat) (xs : list A) :
  (forall x, (1 <= f x)%nat) -> (length xs <= list_sum (map f xs))%nat.
Proof.
  intros Hf. induction xs as [|y xs IH]; simpl; [lia|].
  specialize (Hf y). lia.
Qed.

(** The scanner reads a rendered value back, whatever follows it, given fuel
    for the values of the tree. *)
Lemma scan_value_render (j : json) :
  forall (fuel : nat) (rest : list ascii),
    (Text.size j < fuel)%nat ->
    Text.ends_number rest = true ->
    Text.scan_value fuel (Text.render_chars j ++ rest) = Some (j, rest).
Proof.
  induction j as [ |b|n|s|xs IH|ms IH] using json_nested_ind;
    intros fuel rest Hfuel Hrest; (destruct fuel as [|fuel]; [lia|]).
  - reflexivity.
  - now destruct b.
  - pose proof (scan_int_render n rest Hrest) as Hint.
    cbn [Text.render_chars] in *.
    destruct (str_of_int_head n) as (c & tl & Hhead & Hc).
    rewrite Hhead in *. cbn [app Text.scan_value] in *.
    assert (Htests : (code c =? 34)%N = false /\ (code c =? 123)%N = false
                     /\ (code c =? 91)%N = false /\ (code c =? 110)%N = false
                     /\ (code c =? 116)%N = false /\ (code c =? 102)%N = false).
    { destruct Hc as [->|Hc]; [now vm_compute|].
      destruct c as [[] [] [] [] [] [] [] []]; try discriminate Hc; now vm_compute. }
    destruct Htests as (-> & -> & -> & -> & -> & ->).
    now rewrite Hint.
  - cbn [Text.render_chars]. unfold Text.render_string.
    cbn [app Text.scan_value].
    change (code Text.quote =? 34)%N with true. cbv iota.
    rewrite <- app_assoc. cbn [app].
    rewrite scan_string_render. cbn [rev app].
    now rewrite string_of_list_ascii_of_string.
  - cbn [Text.render_chars Text.size] in *.
    cbn [app Text.scan_value].
    change (code "["%char =? 34)%N with false.
    change (code "["%char =? 123)%N with false.
    change (code "["%char =? 91)%N with true. cbv iota.
    rewrite <- app_assoc. cbn [app].
    destruct xs as [|x xs]; [reflexivity|].
    rewrite skip_ws_join by discriminate.
    assert (Hopen : Text.closes 93
                      (Text.join (map Text.render_chars (x :: xs)) ++ "]"%char :: rest)
                    = false).
    { cbn [map]. rewrite join_cons, <- app_assoc.
      destruct (render_head x (match map Text.render_chars xs with
                               | [] => []
                               | _ :: _ => ","%char :: " "%char
                                           :: Text.join (map Text.render_chars xs)
                               end ++ "]"%char :: rest)) as (c & r & -> & Hc).
      cbn [Text.closes]. now destruct (starts_value_facts c Hc) as (_ & -> & _). }
    rewrite Hopen.
    rewrite scan_elements_render; [reflexivity|discriminate| |].
    + pose proof (list_sum_length Text.size (x :: xs) size_pos). lia.
    + intros y rest' Hin Hrest'.
      apply (proj1 (Forall_forall _ _) IH y Hin); [|assumption].
      pose proof (list_sum_elem Text.size y (x :: xs) Hin). lia.
  - cbn [Text.render_chars Text.size] in *.
    cbn [app Text.scan_value].
    change (code "{"%char =? 34)%N with false.
    change (code "{"%char =? 123)%N with true. cbv iota.
    rewrite <- app_assoc. cbn [app].
    destruct ms as [|[name v] ms]; [reflexivity|].
    assert (Hskip : forall tail : list ascii,
              Text.skip_ws
                (Text.join
                   (map (fun m => Text.render_string m.1
                                  ++ ":"%char :: " "%char :: Text.render_chars m.2)
                        ((name, v) :: ms)) ++ tail)
              = Text.quote
                :: flat_map Text.escape_char (list_ascii_of_string name)
                ++ Text.quote :: ":"%char :: " "%char :: Text.render_chars v
                ++ (match ms with
                    | [] => []
                    | _ :: _ =>
                        ","%char :: " "%char
                        :: Text.join
                             (map (fun m => Text.render_string m.1
                                            ++ ":"%char :: " "%char
                                            :: Text.render_chars m.2) ms)
                    end ++ tail)).
    { intros tail. cbn [map fst snd]. rewrite join_cons, <- app_assoc, member_text.
      rewrite skip_ws_keep by reflexivity. now destruct ms. }
    rewrite (Hskip ("}"%char :: rest)). cbn [Text.closes].
    change (code Text.quote =? 125)%N with false. cbv iota.
    rewrite <- (Hskip ("}"%char :: rest)).
    assert (Hjoin : Text.skip_ws
                      (Text.join
                         (map (fun m => Text.render_string m.1
                                        ++ ":"%char :: " "%char :: Text.render_chars m.2)
                              ((name, v) :: ms)) ++ "}"%char :: rest)
                    = Text.join
                        (map (fun m => Text.render_string m.1
                                       ++ ":"%char :: " "%char :: Text.render_chars m.2)
                             ((name, v) :: ms)) ++ "}"%char :: rest).
    { rewrite Hskip. cbn [map fst snd].
      rewrite join_cons, <- app_assoc, member_text. now destruct ms. }
    rewrite Hjoin.
    rewrite scan_members_render; [reflexivity|discriminate| |].
    + pose proof (list_sum_length (fun m : string * json => Text.size m.2)
                    ((name, v) :: ms) (fun m => size_pos m.2)). lia.
    + intros m rest' Hin Hrest'.
      apply (proj1 (Forall_forall _ _) IH m Hin); [|assumption].
      pose proof (list_sum_elem (fun m : string * json => Text.size m.2) m
                    ((name, v) :: ms) Hin). lia.
Qed.

Lemma join_length (parts : list (list ascii)) :
  (list_sum (map (@length ascii) parts) <= length (Text.join parts))%nat.
Proof.
  induction parts as [|p ps IH]; [simpl; lia|].
  rewrite join_cons, length_app.
  destruct ps as [|q ps]; [simpl; lia|].
  cbn [length map list_sum fold_right] in *. lia.
Qed.

Lemma list_sum_le {A : Type} (f g : A -> nat) (xs : list A) :
  Forall (fun x => (f x <= g x)%nat) xs ->
  (list_sum (map f xs) <= list_sum (map g xs))%nat.
Proof. induction 1 as [|x xs Hx _ IH]; simpl; lia. Qed.

Lemma render_length (j : json) : (Text.size j <= length (Text.render_chars j))%nat.
Proof.
  induction j as [ |b|n|s|xs IH|ms IH] using json_nested_ind.
  - simpl. lia.
  - destruct b; simpl; lia.
  - cbn [Text.size Text.render_chars].
    destruct (str_of_int_head n) as (c & tl & -> & _). simpl. lia.
  - simpl. lia.
  - cbn [Text.size Text.render_chars length]. rewrite length_app.
    pose proof (join_length (map Text.render_chars xs)) as Hjoin.
    rewrite map_map in Hjoin.
    pose proof (list_sum_le Text.size (fun x => length (Text.render_chars x)) xs IH).
    simpl. lia.
  - cbn [Text.size Text.render_chars length]. rewrite length_app.
    pose proof (join_length
                  (map (fun m => Text.render_string m.1
                                 ++ ":"%char :: " "%char :: Text.render_chars m.2) ms))
      as Hjoin.
    rewrite map_map in Hjoin.
    assert (Hparts : Forall (fun m : string * json =>
                       (Text.size m.2
                        <= length (Text.render_string m.1
                                   ++ ":"%char :: " "%char :: Text.render_chars m.2))%nat)
                       ms).
    { eapply Forall_impl; [exact IH|]. intros m Hm. cbn beta in Hm |- *.
      rewrite length_app. simpl. lia. }
    pose proof (list_sum_le _ _ ms Hparts).
    cbn [length]. lia.
Qed.

(** The text side reads back every tree it writes. *)
Lemma scan_render_text (j : json) : Text.scan_text (Text.render_text j) = Some j.
Proof.
  unfold Text.scan_text, Text.render_text.
  rewrite list_ascii_of_string_of_list_ascii.
  pose proof (skip_ws_render j []) as Hskip. rewrite app_nil_r in Hskip.
  rewrite Hskip.
  pose proof (scan_value_render j (S (length (Text.render_chars j))) []) as Hscan.
  rewrite app_nil_r in Hscan. rewrite Hscan; [reflexivity| |reflexivity].
  pose proof (render_length j). lia.
Qed.

(** The text of a dict is not blank. *)
Lemma strip_render_text_dict (ms : list (string * json)) :
  strip (Text.render_text (JObj ms)) <> EmptyString.
Proof.
  unfold strip, strip_by, Text.render_text.
  rewrite list_ascii_of_string_of_list_ascii.
  cbn [Text.render_chars].
  set (body := Text.join _).
  cbn [lstrip_chars]. change (char_isspace "{"%char) with false. cbv iota.
  cbn [rev]. rewrite rev_app_distr. cbn [rev app lstrip_chars].
  change (char_isspace "}"%char) with false. cbv iota.
  cbn [rev]. destruct (rev (rev body ++ ["{"%char])); discriminate.
Qed.

(** C6, as the code has it: a store of allow-listed names in which every
    mapping, at every depth, is keyed by integers that are not negative and by
    strings that [isdigit] rejects comes back from its own text unchanged; and
    loading that text puts every name but [history] in the session store with
    its value and the items of a well-formed [history] in the history
    storage, not in the session store. *)
Theorem round_trip_stable (store : list (key * pyval)) :
  allow_listed store = true ->
  stable (VDict store) = true ->
  json_loads (json_dumps (VDict store)) hook = Ok (VDict store)
  /\ (well_formed store = true ->
      forall st : state,
        session_file st = Some (json_dumps (VDict store)) ->
        (forall (name : string) (v : pyval),
           name <> "history" ->
           Dict.get (KStr name) store = Some v ->
           Dict.get (KStr name) (_session (load_session st).2) = Some v)
        /\ (forall h : list (key * pyval),
              Dict.get (KStr "history") store = Some (VDict h) ->
              _storage (load_session st).2 = history_storage h)
        /\ Dict.get (KStr "history") (_session (load_session st).2)
           = Dict.get (KStr "history") (_session st)).
Proof.
  intros Hall Hstable.
  destruct (round_trip_lossless store Hall Hstable) as [Hback Hload].
  - apply scan_render_text.
  - split; [exact Hback|].
    intros Hwf st Hfile. apply Hload; try assumption.
    apply strip_render_text_dict.
Qed.

Lemma round_trip_stable_witness :
  json_loads (json_dumps (VDict stable_store)) hook = Ok (VDict stable_store)
  /\ Dict.get (KStr "last_used_register_name")
       (_session (load_session (fresh_with_file (json_dumps (VDict stable_store)))).2)
     = Some (VStr "a")
  /\ _storage (load_session (fresh_with_file (json_dumps (VDict stable_store)))).2
     = history_storage [(KInt 1, VDict [(KInt 0, VStr "ls")])].
Proof.
  destruct (round_trip_stable stable_store) as [Hback Hload]; try reflexivity.
  split; [exact Hback|].
  destruct Hload with (st := fresh_with_file (json_dumps (VDict stable_store)))
    as (Hkept & Hhist & _); try reflexivity.
  split.
  - apply Hkept; [discriminate|reflexivity].
  - apply Hhist. reflexivity.
Defined.

(** ** Saving *)

(** A value with stable keys comes back from its own tree. *)
Lemma decode_to_json (v : pyval) :
  stable v = true -> decode hook (to_json v) = Ok v.
Proof.
  intros Hstable.
  rewrite decode_promotes by now apply stable_decimal_names.
  now rewrite promote_all_to_json.
Qed.

(** C7: [save_session] filters nothing.  The text it makes of the store
    reads back as an object with one member for every item of the store, in
    the store's order and whatever the name, allow-listed or not: the member
    has the item's key for its name, and its value decodes to the item's
    value when that has stable keys.  When the save goes through, the file
    holds that text and nothing of what it held before.  When [json.dumps]
    or [open] raises, the file is as it was; when the write breaks off, the
    file holds the part of the text that got there.  The store is the same
    in every case. *)
Theorem save_session_writes_whole_store (st : state) :
  (exists members : list (string * json),
      scan (json_dumps (VDict (_session st))) = Some (JObj members)
      /\ Forall2
           (fun (kv : key * pyval) (m : string * json) =>
              m.1 = match kv.1 with
                    | KStr name => name
                    | KInt n => str_of_int n
                    end
              /\ (stable kv.2 = true -> decode hook m.2 = Ok kv.2))
           (_session st) members)
  /\ _session (save_session st).2 = _session st
  /\ match next_save st with
     | Saved =>
         (save_session st).1 = Ok tt
         /\ session_file (save_session st).2 = Some (json_dumps (VDict (_session st)))
         /\ written (save_session st).2 = written st ++ [json_dumps (VDict (_session st))]
     | DumpsRaises =>
         (save_session st).1 = Raise RecursionError
         /\ session_file (save_session st).2 = session_file st
         /\ written (save_session st).2 = written st
     | OpenRaises =>
         (save_session st).1 = Raise OSError
         /\ session_file (save_session st).2 = session_file st
         /\ written (save_session st).2 = written st
     | WriteRaises n =>
         (save_session st).1 = Raise OSError
         /\ session_file (save_session st).2
            = Some (substring 0 n (json_dumps (VDict (_session st))))
         /\ written (save_session st).2 = written st
     end.
Proof.
  split; [|split].
  - exists (map (fun kv : key * pyval => (key_text kv.1, to_json kv.2)) (_session st)).
    split; [apply (scan_render_text (to_json (VDict (_session st))))|].
    induction (_session st) as [|[k v] d IH]; cbn [map]; constructor; [|exact IH].
    cbn [fst snd]. split; [now destruct k|apply decode_to_json].
  - apply save_session_session.
  - unfold next_save, save_session, mbind, M_bind, dumps_session, write_session_file.
    destruct (hd Saved (saves st)) eqn:Hnext; cbn; rewrite ?Hnext; now cbn.
Qed.

(** A store with a name outside the allow-list, next to a file that holds
    [old]: the name is in the text written, and nothing of [old] is; a write
    that breaks off after three characters leaves those three. *)
Lemma save_session_writes_whole_store_witness :
  session_file
    (save_session
       (mkState [(KStr "bogus", VInt 1); (KStr "macros", VDict [(KInt 1, VStr "x")])]
                ∅ ∅ (Some "old") [] [] [])).2
  = Some ("{" +:+ quoted "bogus" +:+ ": 1, " +:+ quoted "macros" +:+ ": {"
          +:+ quoted "1" +:+ ": " +:+ quoted "x" +:+ "}}")
  /\ session_file
       (save_session
          (mkState [(KStr "bogus", VInt 1)] ∅ ∅ (Some "old") [] [] [WriteRaises 3])).2
     = Some ("{" +:+ String Text.quote "b").
Proof.
  split.
  - destruct (save_session_writes_whole_store
                (mkState [(KStr "bogus", VInt 1); (KStr "macros", VDict [(KInt 1, VStr "x")])]
                         ∅ ∅ (Some "old") [] [] [])) as (_ & _ & Hwrite).
    unfold next_save in Hwrite. cbn [hd saves] in Hwrite.
    destruct Hwrite as (_ & Hfile & _). rewrite Hfile. reflexivity.
  - destruct (save_session_writes_whole_store
                (mkState [(KStr "bogus", VInt 1)] ∅ ∅ (Some "old") [] []
                         [WriteRaises 3])) as (_ & _ & Hwrite).
    unfold next_save in Hwrite. cbn [hd saves] in Hwrite.
    destruct Hwrite as (_ & Hfile & _). rewrite Hfile. reflexivity.
Defined.

(** A name outside the allow-list is written like any other. *)
Example save_session_writes_bogus :
  session_file (save_session (mkState [(KStr "bogus", VInt 1)] ∅ ∅ (Some "old") [] [] [])).2
  = Some ("{" +:+ quoted "bogus" +:+ ": 1}").
Proof. reflexivity. Qed.

(** ** The spec's sample runs *)

(** A value written for document 1 is not read for document 2, nor for
    document 1 once it is closed. *)
Example per_document_isolation :
  (get_session_view_value 2 "k" (VStr "d")
     (set_session_view_value 1 "k" (VStr "v") fresh).2).1 = Ok (VStr "d")
  /\ (get_session_view_value 1 "k" (VStr "d")
        (set_session_view_value 1 "k" (VStr "v") fresh).2).1 = Ok (VStr "v")
  /\ (get_session_view_value 1 "k" (VStr "d")
        (session_on_close 1 (set_session_view_value 1 "k" (VStr "v") fresh).2).2).1
     = Ok (VStr "d").
Proof. repeat split; reflexivity. Qed.

(** On an old build a persisted write is in the file at once; from build
    4081 on the file is written when the host exits. *)
Example persist_eager_and_deferred :
  session_file (set_session_value 4080 "macros" (VDict []) true fresh).2
  = Some ("{" +:+ quoted "macros" +:+ ": {}}")
  /\ session_file (set_session_value 4081 "macros" (VDict []) true fresh).2 = None
  /\ session_file
       (session_on_exit 4081 (set_session_value 4081 "macros" (VDict []) true fresh).2).2
     = Some ("{" +:+ quoted "macros" +:+ ": {}}")
  /\ session_file (set_session_value 4080 "macros" (VDict []) false fresh).2 = None.
Proof. repeat split; reflexivity. Qed.

(** * Further properties *)

(** ** The session store *)

Lemma get_session_value_eq (name : string) (default : pyval) (st : state) :
  get_session_value name default st
  = (Ok (match Dict.get (KStr name) (_session st) with
         | Some v => v
         | None => default
         end), st).
Proof.
  unfold get_session_value, try_except, mbind, M_bind, gets.
  now destruct (Dict.get (KStr name) (_session st)).
Qed.

Lemma set_session_value_session `{JsonText} (build : Z) (name : string) (value : pyval)
    (persist : bool) (st : state) :
  _session (set_session_value build name value persist st).2
  = Dict.set (KStr name) value (_session st)
  /\ _views (set_session_value build name value persist st).2 = _views st
  /\ _storage (set_session_value build name value persist st).2 = _storage st.
Proof.
  unfold set_session_value, mbind, M_bind, modify.
  destruct (persist && (build <? 4081)); cbn [fst snd]; [|now repeat split].
  destruct (save_session_session (with_session (Dict.set (KStr name) value) st))
    as (-> & -> & ->).
  now repeat split.
Qed.

(** X1: a value stored with [set_session_value] is what [get_session_value]
    then returns for that name, whatever [persist] and the build are; every
    other name reads as before; and the read changes nothing. *)
Theorem set_then_get_session_value `{JsonText} (build : Z) (name other : string)
    (value default : pyval) (persist : bool) (st : state) :
  get_session_value name default (set_session_value build name value persist st).2
  = (Ok value, (set_session_value build name value persist st).2)
  /\ (other <> name ->
      (get_session_value other default (set_session_value build name value persist st).2).1
      = (get_session_value other default st).1).
Proof.
  destruct (set_session_value_session build name value persist st) as (Hs & _).
  rewrite !get_session_value_eq, Hs. split.
  - now rewrite get_set_eq.
  - intros Hne. cbn [fst]. rewrite get_set_ne by congruence. reflexivity.
Qed.

Lemma set_then_get_session_value_witness :
  (get_session_value "macros" VNone
     (set_session_value 4081 "last_used_register_name" (VStr "a") true
        (mkState [(KStr "macros", VDict [])] ∅ ∅ None [] [] [])).2).1
  = Ok (VDict []).
Proof.
  destruct (set_then_get_session_value 4081 "last_used_register_name" "macros"
              (VStr "a") VNone true (mkState [(KStr "macros", VDict [])] ∅ ∅ None [] [] []))
    as [_ Hother].
  rewrite Hother; [reflexivity|discriminate].
Defined.

(** ** The per-document store, call after call *)

Lemma get_session_view_value_value (doc : Z) (name : string) (default : pyval)
    (st : state) :
  (get_session_view_value doc name default st).1
  = Ok (view_value (_views st) doc name default).
Proof.
  unfold get_session_view_value, try_except, mbind, M_bind, views_getitem, view_value.
  destruct (_views st !! doc) as [d|]; cbn [fst].
  - now destruct (d !! name).
  - now rewrite lookup_empty.
Qed.

Lemma set_session_view_value_views (doc : Z) (name : string) (value : pyval)
    (st : state) :
  (set_session_view_value doc name value st).1 = Ok tt
  /\ _views (set_session_view_value doc name value st).2
     = <[doc := <[name := value]> (match _views st !! doc with
                                   | Some d => d
                                   | None => ∅
                                   end)]> (_views st).
Proof.
  unfold set_session_view_value, mbind, M_bind, views_getitem, modify.
  destruct (_views st !! doc) as [d|]; cbn [fst snd with_views _views];
    (split; [reflexivity|]); [reflexivity|].
  apply insert_insert_eq.
Qed.

Lemma session_on_close_views (doc : Z) (st : state) :
  (session_on_close doc st).1 = Ok tt
  /\ _views (session_on_close doc st).2 = delete doc (_views st).
Proof.
  unfold session_on_close, try_except, views_delitem.
  destruct (_views st !! doc) as [d|] eqn:Hdoc; cbn; (split; [reflexivity|]);
    [reflexivity|].
  symmetry. now apply delete_id.
Qed.

(** X2: a value written with [set_session_view_value] is what a read of that
    document and name then returns, and a read of any other document or any
    other name returns what it returned before the write. *)
Theorem set_session_view_value_isolated (doc doc' : Z) (name name' : string)
    (value default : pyval) (st : state) :
  (get_session_view_value doc name default (set_session_view_value doc name value st).2).1
  = Ok value
  /\ ((doc', name') <> (doc, name) ->
      (get_session_view_value doc' name' default
         (set_session_view_value doc name value st).2).1
      = (get_session_view_value doc' name' default st).1).
Proof.
  destruct (set_session_view_value_views doc name value st) as [_ Hviews].
  rewrite !get_session_view_value_value, Hviews. unfold view_value. split.
  - now rewrite !lookup_insert_eq.
  - intros Hne. f_equal. destruct (decide (doc' = doc)) as [->|Hdoc].
    + rewrite lookup_insert_eq, lookup_insert_ne by congruence.
      destruct (_views st !! doc) as [d|]; [reflexivity|now rewrite lookup_empty].
    + now rewrite lookup_insert_ne by congruence.
Qed.

Lemma set_session_view_value_isolated_witness :
  (get_session_view_value 2 "k" (VStr "d")
     (set_session_view_value 1 "k" (VStr "v") fresh).2).1 = Ok (VStr "d").
Proof.
  destruct (set_session_view_value_isolated 1 2 "k" "k" (VStr "v") (VStr "d") fresh)
    as [_ Hother].
  rewrite Hother; [reflexivity|discriminate].
Defined.

(** X3: once a document is closed, a read of any of its names returns the
    caller's default, and that read puts an empty entry for the document back
    into the per-document store. *)
Theorem read_after_close (doc : Z) (name : string) (default : pyval) (st : state) :
  get_session_view_value doc name default (session_on_close doc st).2
  = (Ok default, with_views (insert doc ∅) (session_on_close doc st).2)
  /\ _views (get_session_view_value doc name default (session_on_close doc st).2).2 !! doc
     = Some ∅.
Proof.
  destruct (session_on_close_views doc st) as [_ Hviews].
  assert (Hgone : _views (session_on_close doc st).2 !! doc = None)
    by (rewrite Hviews; apply lookup_delete_eq).
  assert (Hread : get_session_view_value doc name default (session_on_close doc st).2
                  = (Ok default, with_views (insert doc ∅) (session_on_close doc st).2)).
  { unfold get_session_view_value, try_except, mbind, M_bind.
    rewrite (views_getitem_absent _ _ Hgone). now rewrite lookup_empty. }
  split; [exact Hread|]. rewrite Hread. cbn. apply lookup_insert_eq.
Qed.

(** X4: no call on the per-document store changes the session store, the
    history storage or the session file, so the text [save_session] writes
    does not depend on any per-document value. *)
Theorem view_calls_leave_session `{JsonText} (doc : Z) (name : string)
    (value default : pyval) (st : state) :
  Forall (fun st' : state =>
            _session st' = _session st /\ _storage st' = _storage st
            /\ session_file st' = session_file st /\ written st' = written st
            /\ session_file (save_session st').2 = session_file (save_session st).2)
    [ (set_session_view_value doc name value st).2;
      (get_session_view_value doc name default st).2;
      (session_on_close doc st).2 ].
Proof.
  assert (Hsave : forall st' : state,
            _session st' = _session st -> session_file st' = session_file st ->
            saves st' = saves st ->
            session_file (save_session st').2 = session_file (save_session st).2).
  { intros st' Hs Hf Hd.
    unfold save_session, mbind, M_bind, dumps_session, write_session_file.
    rewrite Hd.
    destruct (hd Saved (saves st)) eqn:Hnext; cbn; rewrite ?Hd, ?Hnext; cbn;
      rewrite ?Hs, ?Hf; reflexivity. }
  repeat apply Forall_cons_2; [| | |apply Forall_nil_2].
  - unfold set_session_view_value, mbind, M_bind, views_getitem, modify.
    destruct (_views st !! doc); cbn [fst snd]; repeat split; now apply Hsave.
  - unfold get_session_view_value, try_except, mbind, M_bind, views_getitem.
    destruct (_views st !! doc) as [d|].
    + destruct (d !! name); cbn [fst snd]; repeat split; now apply Hsave.
    + rewrite lookup_empty. cbn [fst snd]. repeat split; now apply Hsave.
  - unfold session_on_close, try_except, views_delitem.
    destruct (_views st !! doc); cbn [fst snd]; repeat split; now apply Hsave.
Qed.

(** ** Loading, whatever the file holds *)

Lemma loads_into_refl (st : state) : loads_into st st.
Proof. unfold loads_into. now repeat split. Qed.

Lemma loads_into_trans (st1 st2 st3 : state) :
  loads_into st1 st2 -> loads_into st2 st3 -> loads_into st1 st3.
Proof.
  intros (Hv1 & Hf1 & Hw1 & Ht1 & Ho1 & Hk1) (Hv2 & Hf2 & Hw2 & Ht2 & Ho2 & Hk2).
  unfold loads_into. repeat split; try congruence.
  - intros k Hk. now rewrite Ho2, Ho1.
  - intros k Hk. now apply Hk2, Hk1.
Qed.

Lemma loads_into_storage (f : gmap Z pyval -> gmap Z pyval) (st : state) :
  loads_into st (with_storage f st).
Proof. unfold loads_into. now repeat split. Qed.

Lemma history_loop_loads_into (h : list (key * pyval)) (st : state) :
  loads_into st
    (for_each h (fun '(_k, _v) => i ← lift (py_int _k); storage_setitem i _v) st).2.
Proof.
  revert st. induction h as [|[k v] h IH]; intros st; [apply loads_into_refl|].
  cbn [for_each]. unfold mbind, M_bind, lift at 1, storage_setitem at 1, modify.
  destruct (py_int k) as [i|e]; cbn [snd]; [|apply loads_into_refl].
  eapply loads_into_trans; [|apply IH]. apply loads_into_storage.
Qed.

Lemma load_item_loads_into (kv : key * pyval) (st : state) :
  loads_into st (load_item kv st).2.
Proof.
  destruct kv as [k v]. unfold load_item.
  destruct (in_accept_keys k) eqn:Hacc; cbn [negb]; [|apply loads_into_refl].
  destruct (bool_decide_reflect (k = KStr "history")) as [Heq|Hne].
  - unfold mbind, M_bind, storage_clear, modify, lift.
    destruct (items v) as [h|e]; cbn [snd].
    + eapply loads_into_trans; [|apply history_loop_loads_into].
      apply loads_into_storage.
    + apply loads_into_storage.
  - unfold modify, loads_into. cbn. repeat split.
    + intros k' Hk'. apply get_set_ne. intros ->. destruct Hk'; congruence.
    + intros k' Hk'. destruct (decide (k' = k)) as [->|Hkk].
      * rewrite get_set_eq. now eexists.
      * now rewrite get_set_ne.
Qed.

Lemma load_items_loads_into (record : list (key * pyval)) (st : state) :
  loads_into st (for_each record load_item st).2.
Proof.
  revert st. induction record as [|kv record IH]; intros st; [apply loads_into_refl|].
  cbn [for_each]. unfold mbind, M_bind.
  pose proof (load_item_loads_into kv st) as Hitem.
  destruct (load_item kv st) as [[[]|e] st1]; cbn [snd] in *; [|exact Hitem].
  eapply loads_into_trans; [exact Hitem|apply IH].
Qed.

(** X5: whatever the session file holds, and whether the load fails or not,
    [load_session] never writes the file and never touches the per-document
    store; it reports at most one exception; it changes no name of the session
    store outside the allow-list, nor [history]; and it removes no name from
    the session store. *)
Theorem load_session_frame `{JsonText} (st : state) :
  _views (load_session st).2 = _views st
  /\ session_file (load_session st).2 = session_file st
  /\ written (load_session st).2 = written st
  /\ (traces (load_session st).2 = traces st
      \/ exists e : exn, traces (load_session st).2 = traces st ++ [e])
  /\ (forall k : key,
        in_accept_keys k = false \/ k = KStr "history" ->
        Dict.get k (_session (load_session st).2) = Dict.get k (_session st))
  /\ (forall k : key,
        is_Some (Dict.get k (_session st)) ->
        is_Some (Dict.get k (_session (load_session st).2))).
Proof.
  assert (Hbody : exists (r : result unit) (st1 : state),
            load_session st
            = match r with
              | Ok a => (Ok a, st1)
              | Raise FileNotFoundError => (Ok tt, st1)
              | Raise e => print_exc e st1
              end
            /\ loads_into st st1).
  { unfold load_session, try_except, mbind, M_bind, read_session_file.
    destruct (session_file st) as [content|].
    - destruct (negb (String.eqb (strip content) "")).
      + unfold lift.
        destruct (json_loads content hook) as [session|e].
        * destruct (truthy session).
          -- destruct (items session) as [record|e].
             ++ pose proof (load_items_loads_into record st) as Hitems.
                destruct (for_each record load_item st) as [r st1].
                exists r, st1. split; [now destruct r as [|[]]|exact Hitems].
             ++ exists (Raise e), st. split; [now destruct e|apply loads_into_refl].
          -- exists (Ok tt), st. split; [reflexivity|apply loads_into_refl].
        * exists (Raise e), st. split; [now destruct e|apply loads_into_refl].
      + exists (Ok tt), st. split; [reflexivity|apply loads_into_refl].
    - exists (Raise FileNotFoundError), st. split; [reflexivity|apply loads_into_refl]. }
  destruct Hbody as (r & st1 & -> & Hv & Hf & Hw & Ht & Ho & Hk).
  destruct r as [[]|[]]; cbn; repeat split; try assumption;
    first [now left | right; eexists; now rewrite Ht].
Qed.

(** ** Loading twice *)

Lemma set_same {K V : Type} `{EqDecision K} (k : K) (v : V) (d : list (K * V)) :
  Dict.get k d = Some v -> Dict.set k v d = d.
Proof.
  induction d as [|[k' v'] d IH]; simpl; [discriminate|].
  destruct (decide (k = k')) as [->|Hne].
  - now intros [= ->].
  - intros Hget. now rewrite IH.
Qed.

Lemma loaded_item_fixed (record : list (key * pyval)) (st : state) (kv : key * pyval) :
  NoDup record.*1 -> well_formed record = true -> kv ∈ record ->
  loaded_item (fold_left loaded_item record st) kv = fold_left loaded_item record st.
Proof.
  intros Hnd Hwf Hin. destruct kv as [k v].
  pose proof (get_elem_NoDup k v record Hnd Hin) as Hget.
  pose proof (fun h => loaded_storage_history h record st Hnd) as Hstorage.
  pose proof (loaded_session_kept k v record st Hnd) as Hkept.
  destruct (fold_left loaded_item record st) as [s vs sto f w t].
  unfold loaded_item. cbn [fst snd _session _storage] in *.
  destruct (in_accept_keys k) eqn:Hacc; cbn [negb]; [|reflexivity].
  destruct (bool_decide_reflect (k = KStr "history")) as [->|Hne].
  - destruct (well_formed_items record Hnd Hwf _ Hin eq_refl) as (h & Hv & _).
    cbn [snd] in Hv. subst v.
    unfold with_storage. cbn. now rewrite (Hstorage h Hget).
  - unfold with_session. cbn.
    now rewrite (set_same _ _ _ (Hkept eq_refl Hne Hget)).
Qed.

Lemma fold_left_fixed {A B : Type} (f : A -> B -> A) (xs : list B) (a : A) :
  (forall x, x ∈ xs -> f a x = a) -> fold_left f xs a = a.
Proof.
  induction xs as [|x xs IH]; intros Hfix; [reflexivity|].
  cbn [fold_left]. rewrite (Hfix x) by apply list_elem_of_here.
  apply IH. intros y Hy. apply Hfix. now apply list_elem_of_further.
Qed.

(** X6: on a file that decodes to a well-formed record, a second
    [load_session] changes nothing: it returns normally and leaves the state
    the first load left. *)
Theorem load_session_twice `{JsonText} (st : state) (content : string)
    (record : list (key * pyval)) :
  session_file st = Some content ->
  strip content <> EmptyString ->
  json_loads content hook = Ok (VDict record) ->
  well_formed record = true ->
  load_session (load_session st).2 = (Ok tt, (load_session st).2).
Proof.
  intros Hfile Hstrip Hloads Hwf.
  pose proof (json_loads_dict_NoDup _ _ Hloads) as Hnd.
  rewrite (load_session_record st content record Hfile Hstrip Hloads Hwf). cbn [snd].
  rewrite (load_session_record _ content record); try assumption.
  - f_equal. apply fold_left_fixed. intros kv Hin.
    now apply loaded_item_fixed.
  - destruct (loaded_frame record st) as (_ & -> & _). exact Hfile.
Qed.

Lemma load_session_twice_witness :
  load_session (load_session (fresh_with_file sample_text)).2
  = (Ok tt, (load_session (fresh_with_file sample_text)).2).
Proof.
  apply (load_session_twice (fresh_with_file sample_text) sample_text sample_record).
  - reflexivity.
  - vm_compute. discriminate.
  - vm_compute. reflexivity.
  - reflexivity.
Defined.

(** ** Files that stop the load *)

Lemma for_each_app {A : Type} (xs ys : list A) (body : A -> M unit) (st : state) :
  for_each (xs ++ ys) body st
  = match for_each xs body st with
    | (Ok _, st1) => for_each ys body st1
    | (Raise e, st1) => (Raise e, st1)
    end.
Proof.
  revert st. induction xs as [|x xs IH]; intros st; [reflexivity|].
  cbn [app for_each]. unfold mbind, M_bind.
  destruct (body x st) as [[[]|e] st1]; [apply IH|reflexivity].
Qed.

(** The load up to the [history] item of a record. *)
Lemma load_before_history (pre post : list (key * pyval)) (v : pyval) (st : state) :
  NoDup (pre ++ (KStr "history", v) :: post).*1 ->
  for_each (pre ++ (KStr "history", v) :: post) load_item st
  = match load_item (KStr "history", v) (fold_left loaded_item pre st) with
    | (Ok _, st1) => for_each post load_item st1
    | (Raise e, st1) => (Raise e, st1)
    end
  /\ forall k : key, k ∈ post.*1 ->
       Dict.get k (_session (fold_left loaded_item pre st)) = Dict.get k (_session st).
Proof.
  intros Hnd. rewrite fmap_app, fmap_cons in Hnd. cbn [fst] in Hnd.
  apply NoDup_app in Hnd as (_ & Hdisj & Hpost). split.
  - rewrite for_each_app, load_items_eq; [reflexivity|].
    intros [k x] Hin Hk. cbn [fst] in Hk. subst k.
    exfalso. apply (Hdisj (KStr "history")); [|apply list_elem_of_here].
    apply list_elem_of_fmap. now exists (KStr "history", x).
  - intros k Hk. apply loaded_session_other. right; right.
    intros Hpre. apply (Hdisj k Hpre). now apply list_elem_of_further.
Qed.

(** X7: a session file whose top-level value is not an object with at least
    one member loads nothing.  An empty object and the other false values
    ([null], [false], 0, an empty string or list) change nothing at all; any
    other value is reported as an [AttributeError] and the stores stay as
    they were. *)
Theorem load_session_not_an_object `{JsonText} (st : state) (content : string)
    (v : pyval) :
  session_file st = Some content ->
  strip content <> EmptyString ->
  json_loads content hook = Ok v ->
  (forall d : list (key * pyval), v = VDict d -> d = []) ->
  load_session st = (Ok tt, if truthy v then (print_exc AttributeError st).2 else st).
Proof.
  intros Hfile Hstrip Hloads Hv.
  unfold load_session, try_except, mbind, M_bind, read_session_file.
  rewrite Hfile. apply String.eqb_neq in Hstrip. rewrite Hstrip. cbn [negb].
  unfold lift. rewrite Hloads.
  destruct v as [ |b|n|s|xs|d]; cbn [truthy items]; try reflexivity.
  - now destruct b.
  - now destruct (negb (n =? 0)).
  - now destruct (negb (String.eqb s "")).
  - now destruct (negb (bool_decide (xs = []))).
  - now rewrite (Hv d eq_refl).
Qed.

Lemma load_session_not_an_object_witness :
  load_session (fresh_with_file "[1]")
  = (Ok tt, mkState [] ∅ ∅ (Some "[1]") [] [AttributeError] [])
  /\ load_session (fresh_with_file "{}") = (Ok tt, fresh_with_file "{}").
Proof.
  split.
  - rewrite (load_session_not_an_object (fresh_with_file "[1]") "[1]" (VList [VInt 1]));
      try reflexivity; [vm_compute; discriminate|discriminate].
  - rewrite (load_session_not_an_object (fresh_with_file "{}") "{}" (VDict []));
      try reflexivity; [vm_compute; discriminate|now intros d [= <-]].
Defined.

(** X8: when the [history] field of the record is not a mapping, the load
    stops there: the names before it are loaded, the history storage is left
    empty, an [AttributeError] is reported, and no name after it is loaded. *)
Theorem load_session_history_not_mapping `{JsonText} (st : state) (content : string)
    (pre post : list (key * pyval)) (v : pyval) :
  session_file st = Some content ->
  strip content <> EmptyString ->
  json_loads content hook = Ok (VDict (pre ++ (KStr "history", v) :: post)) ->
  (forall h : list (key * pyval), v <> VDict h) ->
  load_session st
  = (Ok tt,
     (print_exc AttributeError
        (with_storage (fun _ => ∅) (fold_left loaded_item pre st))).2)
  /\ _storage (load_session st).2 = ∅
  /\ (forall k : key, k ∈ post.*1 ->
        Dict.get k (_session (load_session st).2) = Dict.get k (_session st)).
Proof.
  intros Hfile Hstrip Hloads Hv.
  pose proof (json_loads_dict_NoDup _ _ Hloads) as Hnd.
  destruct (load_before_history pre post v st Hnd) as [Hrun Hpost].
  assert (Hload : load_session st
                  = (Ok tt,
                     (print_exc AttributeError
                        (with_storage (fun _ => ∅) (fold_left loaded_item pre st))).2)).
  { unfold load_session, try_except, mbind, M_bind, read_session_file.
    rewrite Hfile. apply String.eqb_neq in Hstrip. rewrite Hstrip. cbn [negb].
    unfold lift. rewrite Hloads.
    cbn [truthy]. rewrite bool_decide_eq_false_2 by (now destruct pre).
    cbn [negb items]. rewrite Hrun.
    unfold load_item, mbind, M_bind, storage_clear, modify, lift. cbn.
    destruct v; try reflexivity. now contradiction (Hv d). }
  rewrite Hload. cbn. repeat split. exact Hpost.
Qed.

Lemma load_session_history_not_mapping_witness :
  load_session (fresh_with_file history_number_text)
  = (Ok tt,
     mkState [(KStr "macros", VDict [])] ∅ ∅ (Some history_number_text) []
       [AttributeError] []).
Proof.
  destruct (load_session_history_not_mapping (fresh_with_file history_number_text)
              history_number_text [(KStr "macros", VDict [])]
              [(KStr "last_used_register_name", VStr "a")] (VInt 1)) as [Hload _].
  - reflexivity.
  - vm_compute. discriminate.
  - vm_compute. reflexivity.
  - discriminate.
  - rewrite Hload. reflexivity.
Defined.

Lemma py_int_raises_ValueError (k : key) (e : exn) :
  py_int k = Raise e -> e = ValueError.
Proof.
  destruct k as [s|n]; cbn [py_int]; [|discriminate].
  unfold int_of_str.
  destruct (match strip_by char_isspace_int s with
            | String "-" r => (true, r)
            | String "+" r => (false, r)
            | _ => (false, strip_by char_isspace_int s)
            end) as [negative body].
  destruct (literal_digits false (list_ascii_of_string body)) as [ds|];
    [|now intros [= <-]].
  destruct (NilEmpty.uint_of_string (string_of_list_ascii ds)); [discriminate|].
  now intros [= <-].
Qed.

(** X9: when a key of the [history] mapping is not an integer for [int], the
    load stops at that key: the history storage holds the entries before it
    and nothing else, a [ValueError] is reported, and no name after [history]
    is loaded. *)
Theorem load_session_history_bad_key `{JsonText} (st : state) (content : string)
    (pre post good rest : list (key * pyval)) (bad : key) (x : pyval) (e : exn) :
  session_file st = Some content ->
  strip content <> EmptyString ->
  json_loads content hook
  = Ok (VDict (pre ++ (KStr "history", VDict (good ++ (bad, x) :: rest)) :: post)) ->
  forallb (fun kv => match py_int kv.1 with Ok _ => true | Raise _ => false end) good
  = true ->
  py_int bad = Raise e ->
  load_session st
  = (Ok tt,
     (print_exc ValueError
        (with_storage (fun _ => history_storage good) (fold_left loaded_item pre st))).2)
  /\ _storage (load_session st).2 = history_storage good
  /\ (forall k : key, k ∈ post.*1 ->
        Dict.get k (_session (load_session st).2) = Dict.get k (_session st)).
Proof.
  intros Hfile Hstrip Hloads Hgood Hbad.
  pose proof (py_int_raises_ValueError bad e Hbad) as ->.
  pose proof (json_loads_dict_NoDup _ _ Hloads) as Hnd.
  destruct (load_before_history pre post _ st Hnd) as [Hrun Hpost].
  assert (Hload : load_session st
                  = (Ok tt,
                     (print_exc ValueError
                        (with_storage (fun _ => history_storage good)
                           (fold_left loaded_item pre st))).2)).
  { unfold load_session, try_except, mbind, M_bind, read_session_file.
    rewrite Hfile. apply String.eqb_neq in Hstrip. rewrite Hstrip. cbn [negb].
    unfold lift. rewrite Hloads.
    cbn [truthy]. rewrite bool_decide_eq_false_2 by (now destruct pre).
    cbn [negb items]. rewrite Hrun.
    unfold load_item, mbind, M_bind, storage_clear, modify, lift.
    cbn [negb in_accept_keys items fst snd].
    rewrite !bool_decide_eq_true_2 by (reflexivity || (vm_compute; repeat constructor)).
    cbn [negb]. rewrite for_each_app, (history_loop good _ Hgood).
    cbn [for_each]. unfold mbind, M_bind, lift. rewrite Hbad.
    reflexivity. }
  rewrite Hload. cbn. repeat split. exact Hpost.
Qed.

Lemma load_session_history_bad_key_witness :
  load_session (fresh_with_file history_text)
  = (Ok tt,
     mkState [] ∅ (<[3 := VStr "x"]> ∅) (Some history_text) [] [ValueError] []).
Proof.
  destruct (load_session_history_bad_key (fresh_with_file history_text) history_text
              [] [] [(KInt 3, VStr "x")] [] (KStr "foo") (VStr "y") ValueError)
    as [Hload _].
  - reflexivity.
  - vm_compute. discriminate.
  - vm_compute. reflexivity.
  - reflexivity.
  - reflexivity.
  - rewrite Hload. reflexivity.
Defined.

(** ** The decoding hook *)

(** X10: when no two keys of a dict of decimal names are promoted to the same
    key, the hook keeps every entry, in order and with its value; only the
    keys change. *)
Theorem hook_keeps_entries (d : list (key * pyval)) :
  forallb (fun kv => match kv.1 with
                     | KStr name => decimal_name name
                     | KInt _ => false
                     end) d = true ->
  NoDup (map (fun kv : key * pyval => promoted_key kv.1) d) ->
  hook (VDict d)
  = Ok (VDict (map (fun kv : key * pyval => (promoted_key kv.1, kv.2)) d)).
Proof.
  intros Hnames Hnd. rewrite hook_promotes.
  - rewrite of_pairs_NoDup; [reflexivity|].
    assert (Hkeys : (map (fun kv : key * pyval => (promoted_key kv.1, kv.2)) d).*1
                    = map (fun kv : key * pyval => promoted_key kv.1) d).
    { clear. induction d as [|kv d IHd]; [reflexivity|].
      cbn [map fmap list_fmap fst]. f_equal. exact IHd. }
    now rewrite Hkeys.
  - intros k Hin. apply list_elem_of_fmap in Hin as ([k' v] & -> & Hin).
    apply list_elem_of_In in Hin.
    apply (proj1 (forallb_forall _ _) Hnames) in Hin. cbn [fst] in *.
    destruct k' as [name|n]; [now exists name|discriminate].
Qed.

Lemma hook_keeps_entries_witness :
  hook (VDict [(KStr "12", VStr "a"); (KStr "x", VNone); (KStr "007", VInt 1)])
  = Ok (VDict [(KInt 12, VStr "a"); (KStr "x", VNone); (KInt 7, VInt 1)]).
Proof.
  apply (hook_keeps_entries
           [(KStr "12", VStr "a"); (KStr "x", VNone); (KStr "007", VInt 1)]).
  - reflexivity.
  - apply (bool_decide_unpack _). vm_compute. exact I.
Defined.

Lemma dict_comprehension_int_key (d acc : list (key * pyval)) (n : Z) :
  KInt n ∈ d.*1 -> exists e : exn, dict_comprehension promote_key d acc = Raise e.
Proof.
  revert acc. induction d as [|[k v] d IH]; intros acc Hin;
    [now apply elem_of_nil in Hin|].
  cbn [dict_comprehension]. cbn in Hin. apply elem_of_cons in Hin as [<-|Hin].
  - now exists AttributeError.
  - destruct (promote_key k) as [k'|e]; cbn; [now apply IH|now exists e].
Qed.

(** X11: the hook takes dicts with string keys only: on a dict that has an
    integer key it raises, so it cannot be run on its own result once it has
    promoted a key. *)
Theorem hook_refuses_int_keys (d : list (key * pyval)) (n : Z) :
  KInt n ∈ d.*1 -> exists e : exn, hook (VDict d) = Raise e.
Proof.
  intros Hin. cbn [_json_object_hook_dict_str_key_to_int].
  destruct (dict_comprehension_int_key d [] n Hin) as [e ->]. now exists e.
Qed.

Lemma hook_refuses_int_keys_witness :
  exists e : exn, hook (VDict [(KStr "a", VNone); (KInt 3, VStr "x")]) = Raise e.
Proof.
  apply (hook_refuses_int_keys [(KStr "a", VNone); (KInt 3, VStr "x")] 3).
  apply (bool_decide_unpack _). vm_compute. exact I.
Defined.

(** X12: zeros in front of a string of decimal digits do not count: the
    string and the string with one more zero in front are promoted to the same
    integer key. *)
Theorem promote_key_leading_zero (s : string) :
  s <> EmptyString ->
  forallb char_isdecimal (list_ascii_of_string s) = true ->
  promote_key (KStr (String "0" s)) = promote_key (KStr s)
  /\ exists n : Z, promote_key (KStr s) = Ok (KInt n) /\ 0 <= n.
Proof.
  intros Hne Hall.
  destruct (uint_of_string_decimal s Hall) as [d Hd].
  assert (Hall0 : forallb char_isdecimal (list_ascii_of_string (String "0" s)) = true)
    by (cbn; exact Hall).
  assert (Hd0 : NilEmpty.uint_of_string (String "0" s) = Some (Decimal.D0 d))
    by (cbn; now rewrite Hd).
  unfold promote_key.
  rewrite (isdigit_decimal s Hne Hall).
  rewrite (isdigit_decimal (String "0" s)) by (discriminate || exact Hall0).
  rewrite (int_of_str_decimal s d Hne Hall Hd).
  rewrite (int_of_str_decimal (String "0" s) (Decimal.D0 d)) by
    (discriminate || assumption).
  split; [reflexivity|].
  exists (Z.of_uint d). split; [reflexivity|]. unfold Z.of_uint. apply N2Z.is_nonneg.
Qed.

Lemma promote_key_leading_zero_witness :
  promote_key (KStr "01") = promote_key (KStr "1").
Proof.
  apply (promote_key_leading_zero "1"); [discriminate|reflexivity].
Defined.

(** ** Decoded values *)

Lemma lstrip_chars_forallb (P space : ascii -> bool) (cs : list ascii) :
  forallb P cs = true -> forallb P (lstrip_chars space cs) = true.
Proof.
  induction cs as [|c cs IH]; [easy|]. intros Hall. cbn [lstrip_chars].
  destruct (space c); [|exact Hall].
  cbn in Hall. apply andb_true_iff in Hall as [_ Hall]. now apply IH.
Qed.

Lemma forallb_rev {A : Type} (P : A -> bool) (xs : list A) :
  forallb P xs = true -> forallb P (rev xs) = true.
Proof.
  intros Hall. apply forallb_forall. intros x Hin. apply in_rev in Hin.
  now apply (proj1 (forallb_forall _ _) Hall).
Qed.

Lemma strip_by_forallb (P space : ascii -> bool) (s : string) :
  forallb P (list_ascii_of_string s) = true ->
  forallb P (list_ascii_of_string (strip_by space s)) = true.
Proof.
  intros Hall. unfold strip_by. rewrite list_ascii_of_string_of_list_ascii.
  now apply forallb_rev, lstrip_chars_forallb, forallb_rev, lstrip_chars_forallb.
Qed.

(** [int] of a string that [isdigit] accepts is never negative. *)
Lemma int_of_str_digits_nonneg (s : string) (n : Z) :
  isdigit s = true -> int_of_str s = Ok n -> 0 <= n.
Proof.
  intros Hdigit. unfold int_of_str.
  assert (Hall : forallb char_isdigit
                   (list_ascii_of_string (strip_by char_isspace_int s)) = true).
  { apply strip_by_forallb. now destruct s. }
  destruct (strip_by char_isspace_int s) as [|c r].
  - cbn. discriminate.
  - assert (Hsign : match String c r with
                    | String "-" r0 => (true, r0)
                    | String "+" r0 => (false, r0)
                    | _ => (false, String c r)
                    end = (false, String c r)).
    { cbn in Hall. apply andb_true_iff in Hall as [Hc _].
      destruct c as [[] [] [] [] [] [] [] []]; try discriminate Hc; reflexivity. }
    rewrite Hsign.
    destruct (literal_digits false (list_ascii_of_string (String c r))) as [ds|];
      [|discriminate].
    destruct (NilEmpty.uint_of_string (string_of_list_ascii ds)) as [d|];
      [|discriminate].
    intros [= <-]. unfold Z.of_uint. apply N2Z.is_nonneg.
Qed.

Lemma promote_key_stable (k k' : key) : promote_key k = Ok k' -> stable_key k' = true.
Proof.
  destruct k as [s|n]; cbn [promote_key]; [|discriminate].
  destruct (isdigit s) eqn:Hdigit.
  - destruct (int_of_str s) as [n|e] eqn:Hint; cbn; [|discriminate].
    intros [= <-]. cbn. apply Z.leb_le. eapply int_of_str_digits_nonneg; eassumption.
  - intros [= <-]. cbn. now rewrite Hdigit.
Qed.

Lemma set_Forall {K V : Type} `{EqDecision K} (P : K * V -> Prop) (k : K) (v : V)
    (d : list (K * V)) :
  P (k, v) -> Forall P d -> Forall P (Dict.set k v d).
Proof.
  intros Hkv. induction 1 as [|[k' v'] d Hhead Hd IH]; cbn [Dict.set].
  - now repeat constructor.
  - destruct (decide (k = k')) as [<-|Hne]; constructor; assumption.
Qed.

Lemma of_pairs_Forall {K V : Type} `{EqDecision K} (P : K * V -> Prop)
    (pairs : list (K * V)) :
  Forall P pairs -> Forall P (Dict.of_pairs pairs).
Proof.
  unfold Dict.of_pairs.
  assert (Hgen : forall acc, Forall P acc -> Forall P pairs ->
            Forall P (fold_left (fun d kv => Dict.set kv.1 kv.2 d) pairs acc)).
  { induction pairs as [|[k v] pairs IH]; intros acc Hacc Hpairs; [exact Hacc|].
    apply Forall_cons in Hpairs as [Hkv Hpairs]. cbn [fold_left].
    apply IH; [|assumption]. now apply set_Forall. }
  intros Hpairs. now apply Hgen.
Qed.

Lemma dict_comprehension_Forall (P : key * pyval -> Prop) (f : key -> result key)
    (d acc d' : list (key * pyval)) :
  Forall P acc ->
  (forall k v k', (k, v) ∈ d -> f k = Ok k' -> P (k', v)) ->
  dict_comprehension f d acc = Ok d' ->
  Forall P d'.
Proof.
  revert acc. induction d as [|[k v] d IH]; intros acc Hacc Hf; cbn [dict_comprehension].
  - now intros [= <-].
  - destruct (f k) as [k'|e] eqn:Hk; cbn; [|discriminate].
    apply IH.
    + apply set_Forall; [|assumption]. eapply Hf; [apply list_elem_of_here|exact Hk].
    + intros k0 v0 k0' Hin. apply Hf. now apply list_elem_of_further.
Qed.

(** Every value the decoding builds is stable. *)
Lemma decode_stable (j : json) :
  forall v : pyval, decode hook j = Ok v -> stable v = true.
Proof.
  induction j as [ |b|n|s|xs IH|ms IH] using json_nested_ind; intros v;
    cbn [decode]; try (now intros [= <-]).
  - match goal with
    | |- mbind _ (?elements xs) = _ -> _ =>
        assert (Hels : forall vs, elements xs = Ok vs -> forallb stable vs = true)
    end.
    { induction xs as [|x xs IHxs]; intros vs; [now intros [= <-]|].
      apply Forall_cons in IH as [IHx IHrest].
      destruct (decode hook x) as [vx|e] eqn:Hx; cbn; [|discriminate].
      match goal with
      | |- mbind _ ?rest = _ -> _ => destruct rest as [vs'|e] eqn:Hrest
      end; cbn; [|discriminate].
      intros [= <-]. cbn. rewrite (IHx vx eq_refl). now apply IHxs. }
    match goal with
    | |- mbind _ ?r = _ -> _ => destruct r as [vs|e]
    end; cbn; [|discriminate].
    intros [= <-]. cbn. now apply Hels.
  - match goal with
    | |- mbind _ (?members ms) = _ -> _ =>
        assert (Hms : forall ps, members ms = Ok ps ->
                        Forall (fun kv : key * pyval => stable kv.2 = true) ps)
    end.
    { induction ms as [|m ms IHms]; intros ps; [intros [= <-]; constructor|].
      apply Forall_cons in IH as [IHm IHrest].
      destruct (decode hook m.2) as [vm|e] eqn:Hm; cbn; [|discriminate].
      match goal with
      | |- mbind _ ?rest = _ -> _ => destruct rest as [ps'|e] eqn:Hrest
      end; cbn; [|discriminate].
      intros [= <-]. constructor; [exact (IHm vm eq_refl)|now apply IHms]. }
    match goal with
    | |- mbind _ ?r = _ -> _ => destruct r as [ps|e]
    end; cbn [mbind result_bind]; [|discriminate].
    specialize (Hms ps eq_refl). apply of_pairs_Forall in Hms.
    cbn [_json_object_hook_dict_str_key_to_int].
    destruct (dict_comprehension promote_key (Dict.of_pairs ps) []) as [d'|e] eqn:Hcomp;
      cbn; [|discriminate].
    intros [= <-]. cbn [stable]. apply andb_true_iff. split.
    + apply bool_decide_eq_true_2.
      apply (dict_comprehension_NoDup promote_key (Dict.of_pairs ps) [] d');
        [apply NoDup_nil_2|exact Hcomp].
    + apply forallb_forall. intros kv Hin. apply list_elem_of_In in Hin.
      assert (Hall : Forall (fun kv : key * pyval =>
                               stable_key kv.1 = true /\ stable kv.2 = true) d').
      { eapply dict_comprehension_Forall; [constructor| |exact Hcomp].
        intros k x k' Hkx Hk. cbn. split; [now apply (promote_key_stable k)|].
        exact (proj1 (Forall_forall _ _) Hms (k, x) Hkx). }
      destruct (proj1 (Forall_forall _ _) Hall kv Hin) as [-> ->]. reflexivity.
Qed.

(** X13: every value [json.loads] returns with the hook is stable: at every
    depth, no dict has the same key twice, no string key that [isdigit]
    accepts and no negative integer key. *)
Theorem json_loads_stable `{JsonText} (content : string) (v : pyval) :
  json_loads content hook = Ok v -> stable v = true.
Proof.
  unfold json_loads. destruct (scan content) as [j|]; [|discriminate].
  apply decode_stable.
Qed.

Lemma json_loads_stable_witness :
  stable (VDict [(KInt 1, VStr "b")]) = true.
Proof. apply (json_loads_stable leading_zero_text). reflexivity. Defined.

(** X14: a decoded value is a fixed point of saving and loading: written out
    with [json.dumps] and read again with the hook, it comes back as it
    was. *)
Theorem json_loads_fixed_point (content : string) (v : pyval) :
  json_loads content hook = Ok v ->
  json_loads (json_dumps v) hook = Ok v.
Proof.
  intros Hloads.
  assert (Hstable : stable v = true).
  { revert Hloads. unfold json_loads. destruct (scan content) as [j|]; [|discriminate].
    apply decode_stable. }
  unfold json_loads, json_dumps.
  change (scan (render (to_json v))) with (Text.scan_text (Text.render_text (to_json v))).
  rewrite scan_render_text.
  rewrite decode_promotes by now apply stable_decimal_names.
  now rewrite promote_all_to_json.
Qed.

Lemma json_loads_fixed_point_witness :
  json_loads (json_dumps (VDict [(KInt 1, VStr "b")])) hook
  = Ok (VDict [(KInt 1, VStr "b")]).
Proof. apply (json_loads_fixed_point leading_zero_text). reflexivity. Defined.

(** ** Runs of writes *)

Lemma saves_go_through_next (st : state) :
  saves_go_through st -> next_save st = Saved.
Proof.
  unfold saves_go_through, next_save. intros Hall.
  destruct (saves st) as [|o rest]; [reflexivity|].
  now apply Forall_cons in Hall as [-> _].
Qed.

Lemma saves_go_through_tl (text : string) (st : state) :
  saves_go_through st -> saves_go_through (after_write text st).
Proof.
  unfold saves_go_through, after_write. cbn [saves]. intros Hall.
  destruct (saves st) as [|o rest]; [exact Hall|].
  now apply Forall_cons in Hall as [_ Hrest].
Qed.

(** A call that saves nothing, or whose save goes through. *)
Lemma set_session_value_eq `{JsonText} (build : Z) (name : string) (value : pyval)
    (persist : bool) (st : state) :
  persist && (build <? 4081) = false \/ next_save st = Saved ->
  set_session_value build name value persist st
  = (Ok tt,
     if persist && (build <? 4081) then
       after_write (json_dumps (VDict (Dict.set (KStr name) value (_session st))))
                   (with_session (Dict.set (KStr name) value) st)
     else with_session (Dict.set (KStr name) value) st).
Proof.
  intros Hcase. unfold set_session_value, mbind, M_bind, modify.
  destruct (persist && (build <? 4081)); [|reflexivity].
  destruct Hcase as [Hno|Hnext]; [discriminate Hno|].
  now rewrite save_session_eq.
Qed.


Lemma set_session_values_cons `{JsonText} (build : Z) (c : string * pyval * bool)
    (calls : list (string * pyval * bool)) (st : state) :
  (set_session_value build c.1.1 c.1.2 c.2 st).1 = Ok tt ->
  set_session_values build (c :: calls) st
  = set_session_values build calls (set_session_value build c.1.1 c.1.2 c.2 st).2.
Proof.
  intros Hok. unfold set_session_values. cbn [for_each]. unfold mbind, M_bind.
  destruct (set_session_value build c.1.1 c.1.2 c.2 st) as [[[]|e] st1];
    [reflexivity|discriminate Hok].
Qed.

(** A run whose saves, if it makes any, all go through. *)
Lemma set_session_values_through `{JsonText} (build : Z)
    (calls : list (string * pyval * bool)) (st : state) :
  4081 <= build \/ saves_go_through st ->
  (set_session_values build calls st).1 = Ok tt
  /\ _session (set_session_values build calls st).2
     = fold_left (fun s c => Dict.set (KStr c.1.1) c.1.2 s) calls (_session st)
  /\ length (written (set_session_values build calls st).2)
     = (length (written st)
        + if (build <? 4081)%Z then length (List.filter (fun c => c.2) calls) else 0)%nat
  /\ (4081 <= build \/ saves_go_through (set_session_values build calls st).2).
Proof.
  revert st. induction calls as [|[[name value] persist] calls IH]; intros st Hcase.
  - cbn. repeat split; try reflexivity; [|exact Hcase]. destruct (build <? 4081); lia.
  - assert (Hone : persist && (build <? 4081) = false \/ next_save st = Saved).
    { destruct Hcase as [Hb|Hall]; [|right; now apply saves_go_through_next].
      left. destruct (Z.ltb_spec build 4081); [lia|apply andb_false_r]. }
    pose proof (set_session_value_eq build name value persist st Hone) as Hcall.
    rewrite set_session_values_cons by (cbn [fst snd]; now rewrite Hcall).
    cbn [fst snd]. rewrite Hcall. cbn [snd].
    set (st1 := if persist && (build <? 4081) then _ else _).
    assert (Hcase1 : 4081 <= build \/ saves_go_through st1).
    { destruct Hcase as [Hb|Hall]; [now left|right]. subst st1.
      destruct (persist && (build <? 4081)); [now apply saves_go_through_tl|exact Hall]. }
    destruct (IH st1 Hcase1) as (Hok & Hs & Hlen & Hnext).
    split; [exact Hok|]. split; [|split; [|exact Hnext]].
    + rewrite Hs. subst st1. cbn [fold_left fst snd].
      now destruct (persist && (build <? 4081)).
    + rewrite Hlen. subst st1. cbn [List.filter snd].
      destruct persist, (build <? 4081); cbn; rewrite ?length_app; cbn; lia.
Qed.

(** A run that saves nothing changes the store and nothing else. *)
Lemma set_session_values_no_save `{JsonText} (build : Z)
    (calls : list (string * pyval * bool)) (st : state) :
  4081 <= build \/ Forall (fun c : string * pyval * bool => c.2 = false) calls ->
  set_session_values build calls st
  = (Ok tt,
     with_session
       (fun s => fold_left (fun s c => Dict.set (KStr c.1.1) c.1.2 s) calls s) st).
Proof.
  revert st. induction calls as [|[[name value] persist] calls IH]; intros st Hcase.
  - now destruct st.
  - assert (Hone : persist && (build <? 4081) = false).
    { destruct Hcase as [Hb|Hall].
      - destruct (Z.ltb_spec build 4081); [lia|apply andb_false_r].
      - apply Forall_cons in Hall as [Hp _]. cbn in Hp. now rewrite Hp. }
    pose proof (set_session_value_eq build name value persist st (or_introl Hone))
      as Hcall.
    rewrite Hone in Hcall.
    rewrite set_session_values_cons by (cbn [fst snd]; now rewrite Hcall).
    cbn [fst snd]. rewrite Hcall. cbn [snd]. rewrite IH; [reflexivity|].
    destruct Hcase as [Hb|Hall]; [now left|right].
    now apply Forall_cons in Hall as [_ Hall].
Qed.



(** X16: from build 4081 on, any run of [set_session_value] calls returns
    normally and leaves the file as it was; [session_on_exit] then saves
    once: when the save goes through, the file holds the text of the store
    as the calls left it, and when it fails its exception goes to the caller
    and nothing is added to the writes. *)
Theorem deferred_run_then_exit `{JsonText} (build : Z)
    (calls : list (string * pyval * bool)) (st : state) :
  4081 <= build ->
  (set_session_values build calls st).1 = Ok tt
  /\ session_file (set_session_values build calls st).2 = session_file st
  /\ match next_save st with
     | Saved =>
         written (session_on_exit build (set_session_values build calls st).2).2
         = written st
           ++ [json_dumps
                 (VDict (fold_left (fun s c => Dict.set (KStr c.1.1) c.1.2 s) calls
                           (_session st)))]
         /\ session_file (session_on_exit build (set_session_values build calls st).2).2
            = Some (json_dumps
                      (VDict (fold_left (fun s c => Dict.set (KStr c.1.1) c.1.2 s) calls
                                (_session st))))
     | _ =>
         (session_on_exit build (set_session_values build calls st).2).1
         = Raise (exception_of (next_save st))
         /\ written (session_on_exit build (set_session_values build calls st).2).2
            = written st
     end.
Proof.
  intros Hb. rewrite set_session_values_no_save by now left. cbn [fst snd].
  split; [reflexivity|]. split; [reflexivity|].
  set (st1 := with_session _ st).
  change (next_save st) with (next_save st1).
  unfold session_on_exit.
  destruct (Z.geb_spec build 4081) as [_|Hlt]; [|lia].
  destruct (decide (next_save st1 = Saved)) as [Hnext|Hnext].
  - rewrite Hnext, (save_session_eq st1 Hnext). now cbn.
  - destruct (save_session_raises st1 Hnext) as (Hr & _ & Hw).
    rewrite Hr, Hw. now destruct (next_save st1).
Qed.

Lemma deferred_run_then_exit_witness :
  session_file
    (session_on_exit 4081
       (set_session_values 4081
          [("macros", VDict [], true); ("macros", VDict [(KStr "a", VStr "w")], false)]
          fresh).2).2
  = Some ("{" +:+ quoted "macros" +:+ ": {" +:+ quoted "a" +:+ ": " +:+ quoted "w"
          +:+ "}}").
Proof.
  destruct (deferred_run_then_exit 4081
              [("macros", VDict [], true); ("macros", VDict [(KStr "a", VStr "w")], false)]
              fresh) as (_ & _ & Hexit); [lia|].
  unfold next_save in Hexit. cbn [hd saves fresh] in Hexit.
  destruct Hexit as [_ Hfile]. rewrite Hfile. reflexivity.
Defined.

(** X17: on a build older than 4081 where every save goes through, right
    after a run that ends with a call with [persist] set, the file holds the
    text of the whole store, the values set earlier without [persist]
    included. *)
Theorem eager_run_ends_saved `{JsonText} (build : Z)
    (calls : list (string * pyval * bool)) (name : string) (value : pyval)
    (st : state) :
  build < 4081 ->
  saves_go_through st ->
  session_file (set_session_values build (calls ++ [(name, value, true)]) st).2
  = Some (json_dumps
            (VDict (_session
                      (set_session_values build (calls ++ [(name, value, true)]) st).2)))
  /\ _session (set_session_values build (calls ++ [(name, value, true)]) st).2
     = Dict.set (KStr name) value
         (fold_left (fun s c => Dict.set (KStr c.1.1) c.1.2 s) calls (_session st)).
Proof.
  intros Hb Hall.
  destruct (set_session_values_through build calls st (or_intror Hall))
    as (Hok & Hs & _ & Hnext).
  destruct Hnext as [Hge|Hnext]; [lia|]. apply saves_go_through_next in Hnext.
  unfold set_session_values in *. rewrite for_each_app.
  destruct (for_each calls _ st) as [r st1]. cbn [fst snd] in Hok, Hs, Hnext. subst r.
  cbn [for_each]. unfold mbind, M_bind.
  rewrite set_session_value_eq by now right.
  cbn [fst snd andb].
  destruct (Z.ltb_spec build 4081) as [_|Hge]; [|lia].
  cbn. now rewrite Hs.
Qed.

Lemma eager_run_ends_saved_witness :
  session_file
    (set_session_values 4080
       ([("bogus", VInt 1, false)] ++ [("macros", VDict [], true)]) fresh).2
  = Some ("{" +:+ quoted "bogus" +:+ ": 1, " +:+ quoted "macros" +:+ ": {}}").
Proof.
  destruct (eager_run_ends_saved 4080 [("bogus", VInt 1, false)] "macros" (VDict []) fresh)
    as [Hfile _]; [lia|constructor|].
  rewrite Hfile. reflexivity.
Defined.

(** ** Saving, then loading in a new process *)

Lemma loaded_session_fresh (record : list (key * pyval)) (st : state) :
  NoDup record.*1 ->
  (forall k : key, k ∈ record.*1 -> k ∉ (_session st).*1) ->
  _session (fold_left loaded_item record st)
  = _session st
    ++ List.filter
         (fun kv => in_accept_keys kv.1 && negb (bool_decide (kv.1 = KStr "history")))
         record.
Proof.
  revert st. induction record as [|[k v] record IH]; intros st Hnd Hfresh.
  - cbn. now rewrite app_nil_r.
  - cbn [fmap list_fmap fst] in Hnd. apply NoDup_cons in Hnd as [Hk Hnd].
    cbn [fold_left List.filter fst].
    assert (Hstep : _session (loaded_item st (k, v))
                    = _session st
                      ++ (if in_accept_keys k && negb (bool_decide (k = KStr "history"))
                          then [(k, v)] else [])).
    { unfold loaded_item. cbn [fst snd].
      destruct (in_accept_keys k); cbn [negb andb]; [|now rewrite app_nil_r].
      destruct (bool_decide (k = KStr "history")); cbn [negb].
      - rewrite app_nil_r. now destruct v.
      - cbn. apply set_fresh. apply Hfresh. apply list_elem_of_here. }
    rewrite IH; [|assumption|].
    + rewrite Hstep.
      destruct (in_accept_keys k && negb (bool_decide (k = KStr "history")));
        [now rewrite <- app_assoc|now rewrite app_nil_r].
    + intros k' Hk'. rewrite Hstep, fmap_app. intros Hin.
      apply elem_of_app in Hin as [Hin|Hin].
      * apply (Hfresh k'); [now apply list_elem_of_further|exact Hin].
      * destruct (in_accept_keys k && negb (bool_decide (k = KStr "history")));
          [|now apply elem_of_nil in Hin].
        apply list_elem_of_singleton in Hin. cbn in Hin. now subst k'.
Qed.

(** X18: a stable store with a well-formed [history], saved by a save that
    goes through and then loaded in a new process, comes back with its
    allow-listed names only, [history] apart, in the same order and with the
    same values: every other name that was saved is dropped. *)
Theorem save_then_load_fresh (st : state) :
  stable (VDict (_session st)) = true ->
  well_formed (_session st) = true ->
  next_save st = Saved ->
  session_file (save_session st).2 = Some (json_dumps (VDict (_session st)))
  /\ _session (load_session (fresh_with_file (json_dumps (VDict (_session st))))).2
     = List.filter
         (fun kv => in_accept_keys kv.1 && negb (bool_decide (kv.1 = KStr "history")))
         (_session st).
Proof.
  intros Hstable Hwf Hnext. split; [now rewrite (save_session_eq st Hnext)|].
  assert (Hloads : json_loads (json_dumps (VDict (_session st))) hook
                   = Ok (VDict (_session st))).
  { unfold json_loads, json_dumps.
    change (scan (render (to_json (VDict (_session st)))))
      with (Text.scan_text (Text.render_text (to_json (VDict (_session st))))).
    rewrite scan_render_text.
    rewrite decode_promotes by now apply stable_decimal_names.
    now rewrite promote_all_to_json. }
  assert (Hstrip : strip (json_dumps (VDict (_session st))) <> EmptyString)
    by apply strip_render_text_dict.
  rewrite (load_session_record
             (fresh_with_file (json_dumps (VDict (_session st))))
             (json_dumps (VDict (_session st))) (_session st) eq_refl
             Hstrip Hloads Hwf).
  cbn [snd]. apply stable_dict in Hstable as [Hnd _].
  rewrite loaded_session_fresh; [reflexivity|assumption|].
  intros k _ Hin. now apply elem_of_nil in Hin.
Qed.

Lemma save_then_load_fresh_witness :
  _session
    (load_session
       (fresh_with_file
          (json_dumps (VDict [(KStr "bogus", VInt 1); (KStr "macros", VDict [])])))).2
  = [(KStr "macros", VDict [])].
Proof.
  destruct (save_then_load_fresh
              (mkState [(KStr "bogus", VInt 1); (KStr "macros", VDict [])] ∅ ∅ None [] [] []))
    as [_ Hload]; [reflexivity|reflexivity|reflexivity|].
  exact Hload.
Defined.
